(** * AccountSelector: the account-slot / import model

    Shallow embedding of [src/components/AccountSelector.tsx]: the string
    helper [getInitials], the avatar fallback expression, and the two import
    handlers [handleImportAccount] and [handleQRImport] together with the
    component state they read and write.

    JavaScript strings are sequences of UTF-16 code units; they are modelled
    as lists of code-unit values.  The React state hooks of the component are
    the fields of one record, the effects on collaborators ([toast],
    [importFromQR], [window.location.reload]) are recorded in a log. *)

From Stdlib Require Import String Ascii.
From Stdlib Require Import List NArith ZArith Bool Lia Sorted.
Import ListNotations.

(** ** JavaScript string primitives used by the component *)

Module JS.

(** A UTF-16 code unit. *)
Definition codeunit := N.

(** A JavaScript string value. *)
Definition jsstring := list codeunit.

(** Code units of an ASCII literal, to write string constants down. *)
Definition str (s : string) : jsstring :=
  map N_of_ascii (list_ascii_of_string s).

(** The separator of [name.split(' ')]. *)
Definition space : codeunit := 32%N.

(** [s.split(sep)] for a separator of one code unit: every occurrence of
    the separator ends a piece, so empty pieces are kept, and the empty
    string splits into one empty piece. *)
Fixpoint split (sep : codeunit) (s : jsstring) : list jsstring :=
  match s with
  | [] => [[]]
  | c :: s' =>
      if N.eqb c sep then [] :: split sep s'
      else match split sep s' with
           | w :: ws => (c :: w) :: ws
           | [] => [[c]]
           end
  end.

(** [word[0]]: the one-unit string at index 0, or [undefined] ([None]) when
    the word is empty. *)
Definition index0 (word : jsstring) : option jsstring :=
  match word with
  | [] => None
  | c :: _ => Some [c]
  end.

(** [xs.join('')]: the elements concatenated; an [undefined] element
    contributes the empty string. *)
Fixpoint join_empty (xs : list (option jsstring)) : jsstring :=
  match xs with
  | [] => []
  | None :: xs' => join_empty xs'
  | Some s :: xs' => s ++ join_empty xs'
  end.

(** [s.slice(b, e)] for non-negative indices. *)
Definition slice (b e : nat) (s : jsstring) : jsstring :=
  firstn (e - b) (skipn b s).

(** The code units [String.prototype.trim] strips: ECMAScript WhiteSpace
    and LineTerminator. *)
Definition isWhiteSpace (c : codeunit) : bool :=
  (N.eqb c 9 || N.eqb c 10 || N.eqb c 11 || N.eqb c 12 || N.eqb c 13
   || N.eqb c 32 || N.eqb c 160 || N.eqb c 5760
   || (N.leb 8192 c && N.leb c 8202)
   || N.eqb c 8232 || N.eqb c 8233 || N.eqb c 8239 || N.eqb c 8287
   || N.eqb c 12288 || N.eqb c 65279)%bool.

Fixpoint trimStart (s : jsstring) : jsstring :=
  match s with
  | [] => []
  | c :: s' => if isWhiteSpace c then trimStart s' else s
  end.

Definition trimEnd (s : jsstring) : jsstring :=
  rev (trimStart (rev s)).

(** [s.trim()]. *)
Definition trim (s : jsstring) : jsstring :=
  trimEnd (trimStart s).

(** Truthiness of a string: the empty string is falsy. *)
Definition truthy (s : jsstring) : bool :=
  match s with
  | [] => false
  | _ :: _ => true
  end.

(** [a || b] where [a] is an optional string and [b] a string. *)
Definition or_else (a : option jsstring) (b : jsstring) : jsstring :=
  match a with
  | Some s => if truthy s then s else b
  | None => b
  end.

(** A case mapping to run examples with: ASCII letters, and the sharp s,
    whose upper case is two code units long.  The theorems below hold for
    every [toUpperCase]; this one only evaluates examples. *)
Definition upperUnit (c : codeunit) : jsstring :=
  if (N.leb 97 c && N.leb c 122)%bool then [(c - 32)%N]
  else if N.eqb c 223 then [83%N; 83%N]
  else [c].

Definition toUpperCase_basic (s : jsstring) : jsstring :=
  flat_map upperUnit s.

End JS.

Import JS.

(** ** [getInitials] (lines 43-50) *)

Section Initials.

(** [String.prototype.toUpperCase], a built-in of the host: any function
    on strings. *)
Variable toUpperCase : jsstring -> jsstring.

Definition getInitials (name : jsstring) : jsstring :=
  slice 0 2
    (toUpperCase
       (join_empty
          (map (fun word => index0 word) (split space name)))).

(** The wording of the data model, written down independently of the code:
    the words of a name are its maximal runs of non-space code units. *)
Fixpoint words (s : jsstring) : list jsstring :=
  match s with
  | [] => []
  | c :: s' =>
      if N.eqb c space then words s'
      else match s' with
           | [] => [[c]]
           | d :: _ =>
               if N.eqb d space then [c] :: words s'
               else match words s' with
                    | w :: ws => (c :: w) :: ws
                    | [] => [[c]]
                    end
           end
  end.

Definition firstLetter (word : jsstring) : jsstring := firstn 1 word.

(** "first letter of each space-separated word, uppercased, truncated to 2
    characters" *)
Definition initials_spec (name : jsstring) : jsstring :=
  firstn 2 (toUpperCase (concat (map firstLetter (words name)))).

End Initials.

(** ** Data model read by the component

    The types [Account] and [AccountSlot] are declared by the hook
    [useAccountManager], which is not among the source files; the fields
    below are the ones the component reads. *)

Record Account := mkAccount {
  id : jsstring;
  name : jsstring;
  avatar : option jsstring;
  createdAt : jsstring
}.

Record AccountSlot := mkSlot {
  slot : Z;
  isEmpty : bool;
  account : option Account
}.

Inductive ImportMethod := file | camera.

(** The error taxonomy of the import flow. *)
Inductive ErrorKind :=
| AllSlotsOccupied
| EmptyPayload
| DecodeError
| InvalidSlot
| SlotOccupied
| SlotAlreadyEmpty
| PersistenceFailure.

(** What the handlers do to their collaborators, in program order. *)
Inductive Effect :=
| ToastError (message : string)
| ToastSuccess (message : string)
| ImportFromQR (payload : jsstring) (target : Z)
| Reload.

(** The hook values of one render plus the persisted registry behind the
    hooks.  [accounts] is what [useAccountManager] handed to the component;
    [registry] is the slot store that only collaborators write. *)
Record World := mkWorld {
  accounts : list AccountSlot;
  registry : list AccountSlot;
  showImportDialog : bool;
  importMethod : ImportMethod;
  qrData : jsstring;
  selectedSlot : Z;
  importing : bool;
  log : list Effect
}.

(** The [useState] defaults (lines 36-40). *)
Definition initialWorld (accs reg : list AccountSlot) : World :=
  mkWorld accs reg false file [] 1%Z false [].

Definition with_registry (reg : list AccountSlot) (w : World) : World :=
  mkWorld (accounts w) reg (showImportDialog w) (importMethod w) (qrData w)
          (selectedSlot w) (importing w) (log w).

Definition with_showImportDialog (b : bool) (w : World) : World :=
  mkWorld (accounts w) (registry w) b (importMethod w) (qrData w)
          (selectedSlot w) (importing w) (log w).

Definition with_importMethod (m : ImportMethod) (w : World) : World :=
  mkWorld (accounts w) (registry w) (showImportDialog w) m (qrData w)
          (selectedSlot w) (importing w) (log w).

Definition with_qrData (s : jsstring) (w : World) : World :=
  mkWorld (accounts w) (registry w) (showImportDialog w) (importMethod w) s
          (selectedSlot w) (importing w) (log w).

Definition with_selectedSlot (n : Z) (w : World) : World :=
  mkWorld (accounts w) (registry w) (showImportDialog w) (importMethod w)
          (qrData w) n (importing w) (log w).

Definition with_importing (b : bool) (w : World) : World :=
  mkWorld (accounts w) (registry w) (showImportDialog w) (importMethod w)
          (qrData w) (selectedSlot w) b (log w).

Definition emit (e : Effect) (w : World) : World :=
  mkWorld (accounts w) (registry w) (showImportDialog w) (importMethod w)
          (qrData w) (selectedSlot w) (importing w) (log w ++ [e]).

(** ** A state-and-exception monad for the handlers *)

Inductive Completion (A : Type) :=
| Normal (a : A)
| Throw (e : ErrorKind).

Arguments Normal {A} a.
Arguments Throw {A} e.

Definition M (A : Type) : Type := World -> Completion A * World.

Definition ret {A} (a : A) : M A := fun w => (Normal a, w).

Definition bind {A B} (m : M A) (k : A -> M B) : M B :=
  fun w =>
    match m w with
    | (Normal a, w') => k a w'
    | (Throw e, w') => (Throw e, w')
    end.

Declare Scope handler_scope.
Delimit Scope handler_scope with handler.
Notation "x <- m ;; k" := (bind m (fun x => k))
  (at level 61, m at next level, right associativity) : handler_scope.
Notation "m ;; k" := (bind m (fun _ => k))
  (at level 61, right associativity) : handler_scope.
Open Scope handler_scope.

(** [try { body } catch (error) { handler } finally { fin }] *)
Definition tryCatchFinally {A} (body : M A) (handler : ErrorKind -> M A)
    (fin : M unit) : M A :=
  fun w =>
    let '(r, w1) :=
      match body w with
      | (Normal a, w') => (Normal a, w')
      | (Throw e, w') => handler e w'
      end in
    match fin w1 with
    | (Normal _, w2) => (r, w2)
    | (Throw e, w2) => (Throw e, w2)
    end.

(** Reading a hook value of the current render. *)
Definition read {A} (f : World -> A) : M A := fun w => (Normal (f w), w).

Definition modify (f : World -> World) : M unit := fun w => (Normal tt, f w).

Definition setShowImportDialog (b : bool) : M unit :=
  modify (with_showImportDialog b).
Definition setQrData (s : jsstring) : M unit := modify (with_qrData s).
Definition setSelectedSlot (n : Z) : M unit := modify (with_selectedSlot n).
Definition setImporting (b : bool) : M unit := modify (with_importing b).
Definition toast_error (message : string) : M unit :=
  modify (emit (ToastError message)).
Definition toast_success (message : string) : M unit :=
  modify (emit (ToastSuccess message)).
Definition window_location_reload : M unit := modify (emit Reload).

(** ** [handleImportAccount] (lines 52-60) *)

Definition msgAllSlotsOccupied : string :=
  "All account slots are occupied. Please remove an account first.".

(** [accounts.find(acc => acc.isEmpty)?.slot] *)
Definition availableSlot (accs : list AccountSlot) : option Z :=
  option_map slot (find (fun acc => isEmpty acc) accs).

(** [!availableSlot] holds for [undefined] and for the number 0. *)
Definition handleImportAccount : M unit :=
  accs <- read accounts ;;
  match availableSlot accs with
  | None | Some 0%Z => toast_error msgAllSlotsOccupied
  | Some n =>
      setSelectedSlot n ;;
      setShowImportDialog true
  end.

(** [disabled={!accounts.some(acc => acc.isEmpty)}] (line 201) *)
Definition importAccountDisabled (w : World) : bool :=
  negb (existsb (fun acc => isEmpty acc) (accounts w)).

(** ** [handleQRImport] (lines 62-81) *)

Definition msgEmptyPayload : string := "Please provide QR code data".
Definition msgImported : string := "Account imported successfully!".
Definition msgImportFailed : string :=
  "Failed to import account. Please check your QR code.".

(** The statements of the [try] block after the [await]. *)
Definition afterImport : M unit :=
  toast_success msgImported ;;
  setShowImportDialog false ;;
  setQrData [] ;;
  window_location_reload.

Definition onImportError (error : ErrorKind) : M unit :=
  toast_error msgImportFailed.

Section Handlers.

(** [importFromQR] of the hook [useQRTransfer]: given the payload and the
    target slot it acts on the registry and either returns or throws. *)
Variable importFromQR :
  jsstring -> Z -> list AccountSlot -> Completion unit * list AccountSlot.

(** [await importFromQR(payload, target)] run to completion. *)
Definition await_importFromQR (payload : jsstring) (target : Z) : M unit :=
  fun w =>
    let w1 := emit (ImportFromQR payload target) w in
    let '(r, reg') := importFromQR payload target (registry w1) in
    (r, with_registry reg' w1).

Definition handleQRImport : M unit :=
  payload <- read qrData ;;
  target <- read selectedSlot ;;
  if negb (truthy (trim payload)) then toast_error msgEmptyPayload
  else
    setImporting true ;;
    tryCatchFinally
      (await_importFromQR payload target ;; afterImport)
      onImportError
      (setImporting false).

End Handlers.

(** [disabled={importing || !qrData.trim()}] (line 286) *)
Definition importDisabled (w : World) : bool :=
  importing w || negb (truthy (trim (qrData w))).

(** ** The avatar fallback (line 155) *)

Section Avatar.

Variable toUpperCase : jsstring -> jsstring.

(** [accountSlot.account?.avatar || getInitials(accountSlot.account?.name || '')] *)
Definition avatarFallback (accountSlot : AccountSlot) : jsstring :=
  or_else
    (match account accountSlot with Some a => avatar a | None => None end)
    (getInitials toUpperCase
       (or_else (option_map name (account accountSlot)) [])).

End Avatar.

(** ** [handleQRImport] as the event loop runs it

    An [async] function runs synchronously up to its [await] and is resumed
    when the awaited promise settles. *)

(** Up to the [await]: the new state and the call that was issued, if any. *)
Definition handleQRImport_begin (w : World) : World * option (jsstring * Z) :=
  let payload := qrData w in
  let target := selectedSlot w in
  if negb (truthy (trim payload)) then (emit (ToastError msgEmptyPayload) w, None)
  else (emit (ImportFromQR payload target) (with_importing true w),
        Some (payload, target)).

(** From the [await] on, once the promise has settled with [r]. *)
Definition handleQRImport_resume (r : Completion unit) : M unit :=
  tryCatchFinally
    ((fun w => (r, w)) ;; afterImport)
    onImportError
    (setImporting false).

(** One page life: the hook values and the number of [importFromQR] promises
    that have not settled yet. *)
Record Page := mkPage {
  world : World;
  inFlight : nat
}.

Inductive Event :=
| ClickImportAccount
| OpenChange (open : bool)
| ClickPasteData
| ChangeQrData (value : jsstring)
| ClickCancel
| ClickImport
| Settled (r : Completion unit) (reg : list AccountSlot).

Definition on_world (f : World -> World) (p : Page) : Page :=
  mkPage (f (world p)) (inFlight p).

(** The event handlers wired in the JSX, with every event handled on a
    render of the current hook values: the re-render that follows an event
    is committed before the next event.  A disabled button fires no event;
    the controls inside the dialog exist only while it is open.  [Settled r
    reg] is the settling of a pending [importFromQR] promise that left the
    registry as [reg].  What happens when an event is handled before the
    re-render is committed is the subject of [stepLive] below. *)
Definition step (ev : Event) (p : Page) : option Page :=
  let w := world p in
  match ev with
  | ClickImportAccount =>
      if importAccountDisabled w then None
      else Some (on_world (fun w => snd (handleImportAccount w)) p)
  | OpenChange open => Some (on_world (with_showImportDialog open) p)
  | ClickPasteData =>
      if showImportDialog w then Some (on_world (with_importMethod file) p)
      else None
  | ChangeQrData value =>
      if showImportDialog w then Some (on_world (with_qrData value) p)
      else None
  | ClickCancel =>
      if showImportDialog w then Some (on_world (with_showImportDialog false) p)
      else None
  | ClickImport =>
      if showImportDialog w && negb (importDisabled w) then
        let '(w1, call) := handleQRImport_begin w in
        Some (mkPage w1 (match call with
                         | Some _ => S (inFlight p)
                         | None => inFlight p
                         end))
      else None
  | Settled r reg =>
      match inFlight p with
      | O => None
      | S n => Some (mkPage (snd (handleQRImport_resume r (with_registry reg w))) n)
      end
  end.

Fixpoint run (evs : list Event) (p : Page) : option Page :=
  match evs with
  | [] => Some p
  | ev :: evs' =>
      match step ev p with
      | Some p' => run evs' p'
      | None => None
      end
  end.

Definition initialPage (accs reg : list AccountSlot) : Page :=
  mkPage (initialWorld accs reg) 0.

(** ** The import resolver behind [importFromQR] *)

Section Resolver.

(** The transfer-payload codec: [decode(text) -> Account | DecodeError]. *)
Variable decode : jsstring -> option Account.

(** The account store: [save(slots) -> success | error]. *)
Variable save : list AccountSlot -> bool.

(** Modelled from the spec: [Registry.bindAccount] is not among the source
    files.  It fails with [InvalidSlot] if the slot number does not exist
    and with [SlotOccupied] if the slot is not empty; on success it binds
    the account in place and persists, and a failure to persist rolls the
    mutation back. *)
Definition bindAccount (n : Z) (a : Account) (slots : list AccountSlot)
  : Completion unit * list AccountSlot :=
  match find (fun s => Z.eqb (slot s) n) slots with
  | None => (Throw InvalidSlot, slots)
  | Some s =>
      if isEmpty s then
        let slots' :=
          map (fun s => if Z.eqb (slot s) n then mkSlot n false (Some a) else s)
              slots in
        if save slots' then (Normal tt, slots')
        else (Throw PersistenceFailure, slots)
      else (Throw SlotOccupied, slots)
  end.

(** Modelled from the spec: [importFromQR] of the hook [useQRTransfer] is
    not among the source files.  It decodes the payload into an account
    and, on decode success, delegates to [bindAccount]. *)
Definition importFromQR_spec (payload : jsstring) (target : Z)
    (slots : list AccountSlot) : Completion unit * list AccountSlot :=
  match decode payload with
  | None => (Throw DecodeError, slots)
  | Some a => bindAccount target a slots
  end.

End Resolver.

(** ** The notification each error leads to *)

Definition errorToasts (l : list Effect) : list string :=
  flat_map (fun e => match e with ToastError m => [m] | _ => [] end) l.

(** A collaborator that throws [e]. *)
Definition rejecting (e : ErrorKind)
  : jsstring -> Z -> list AccountSlot -> Completion unit * list AccountSlot :=
  fun _ _ reg => (Throw e, reg).

(** [AllSlotsOccupied] arises in [handleImportAccount] when no slot is empty,
    [EmptyPayload] in [handleQRImport] on a blank payload, every other error
    is thrown by [importFromQR]; the notification is what the handler then
    shows. *)
Definition notification (e : ErrorKind) : list string :=
  match e with
  | AllSlotsOccupied =>
      errorToasts (log (snd (handleImportAccount (initialWorld [] []))))
  | EmptyPayload =>
      errorToasts (log (snd (handleQRImport (rejecting e) (initialWorld [] []))))
  | _ =>
      errorToasts
        (log (snd (handleQRImport (rejecting e)
                     (with_qrData (str "payload") (initialWorld [] [])))))
  end.

(** The errors that reach the component as an exception of [importFromQR]. *)
Definition thrownByImport (e : ErrorKind) : bool :=
  match e with
  | AllSlotsOccupied | EmptyPayload => false
  | _ => true
  end.

(** ** Invariants of the slot list *)

(** Modelled from the spec: the hook [useAccountManager] that produces
    [accounts] is not among the source files.  [listSlots] returns the
    slots in slot-number order. *)
Fixpoint inSlotOrder (accs : list AccountSlot) : bool :=
  match accs with
  | [] => true
  | a :: rest =>
      forallb (fun b => Z.leb (slot a) (slot b)) rest && inSlotOrder rest
  end.

(** Modelled from the spec: a slot number is a positive integer. *)
Definition positiveSlots (accs : list AccountSlot) : bool :=
  forallb (fun a => Z.ltb 0 (slot a)) accs.

(** Whether a submission in world [w] gets past the blank-payload guard and
    the collaborator then returns normally. *)
Definition importSucceeds
    (importFromQR :
       jsstring -> Z -> list AccountSlot -> Completion unit * list AccountSlot)
    (w : World) : bool :=
  truthy (trim (qrData w))
  && match fst (importFromQR (qrData w) (selectedSlot w) (registry w)) with
     | Normal _ => true
     | Throw _ => false
     end.

(** The errors the import flow can end in. *)
Definition importFlowErrors : list ErrorKind :=
  [AllSlotsOccupied; EmptyPayload; DecodeError; InvalidSlot; SlotOccupied].

(** ** The rest of the component *)

(** A file of the hidden file input, as far as the component sees it: the
    text [reader.readAsText] produces, or nothing when the read fails and
    no [load] event fires. *)
Record File := mkFile {
  readAsText : option jsstring
}.

(** [handleFileUpload] (lines 83-95), with the [onload] callback run when
    the read completes: [event.target.files?.[0]], nothing without a file,
    else [setQrData(result)]. *)
Definition handleFileUpload (files : option (list File)) : M unit :=
  match files with
  | Some (f :: _) =>
      match readAsText f with
      | Some result => setQrData result
      | None => ret tt
      end
  | Some [] | None => ret tt
  end.

(** The text under the name of a bound slot (line 172):
    [{accountSlot.account?.id.slice(0, 20)}...]; an [undefined] renders as
    nothing. *)
Definition idLabel (accountSlot : AccountSlot) : jsstring :=
  match account accountSlot with
  | Some a => slice 0 20 (id a)
  | None => []
  end ++ str "...".

(** The calls into the parent that the slot cards offer. *)
Inductive ParentCall :=
| OnCreateAccount (slotNo : Z)
| OnSelectAccount (slotNo : Z).

(** One card per slot (lines 127-192): the button of an empty slot calls
    [onCreateAccount(accountSlot.slot)], the button of any other slot
    [onSelectAccount(accountSlot.slot)]. *)
Definition cardAction (accountSlot : AccountSlot) : ParentCall :=
  if isEmpty accountSlot then OnCreateAccount (slot accountSlot)
  else OnSelectAccount (slot accountSlot).

Definition slotActions (accs : list AccountSlot) : list ParentCall :=
  map (fun accountSlot => cardAction accountSlot) accs.

(** The hint under the import button (line 207):
    [!accounts.some(acc => acc.isEmpty) && <p>...</p>]. *)
Definition occupiedHintShown (w : World) : bool :=
  negb (existsb (fun acc => isEmpty acc) (accounts w)).

(** ** Reading the effect log *)

Definition isCall (e : Effect) : bool :=
  match e with ImportFromQR _ _ => true | _ => false end.

Definition isSuccessToast (e : Effect) : bool :=
  match e with ToastSuccess _ => true | _ => false end.

Definition isFailureToast (e : Effect) : bool :=
  match e with
  | ToastError m => String.eqb m msgImportFailed
  | _ => false
  end.

Definition isReload (e : Effect) : bool :=
  match e with Reload => true | _ => false end.

Definition countEffects (f : Effect -> bool) (l : list Effect) : nat :=
  length (filter f l).

Definition isSettled (ev : Event) : bool :=
  match ev with Settled _ _ => true | _ => false end.

Definition enabled (ev : Event) (p : Page) : bool :=
  match step ev p with Some _ => true | None => false end.

(** What the resumption leaves, by outcome. *)
Definition settledWorld (r : Completion unit) (w : World) : World :=
  match r with
  | Normal _ =>
      with_importing false
        (emit Reload
           (with_qrData []
              (with_showImportDialog false (emit (ToastSuccess msgImported) w))))
  | Throw _ => with_importing false (emit (ToastError msgImportFailed) w)
  end.

(** ** The component between renders

    A handler is a closure of the render that created it: it reads the hook
    values of that render, while its setters act on the current hook state.
    The attributes of the buttons are those of the last committed render. *)

Record Live := mkLive {
  hooks : World;
  rendered : World;
  pending : nat
}.

Definition initialLive (accs reg : list AccountSlot) : Live :=
  mkLive (initialWorld accs reg) (initialWorld accs reg) 0.

(** A page whose last render shows the current hook values. *)
Definition committed (p : Page) : Live :=
  mkLive (world p) (world p) (inFlight p).

(** [handleImportAccount] of the render [r], acting on the hook state. *)
Definition handleImportAccount_in (r : World) : M unit :=
  match availableSlot (accounts r) with
  | None | Some 0%Z => toast_error msgAllSlotsOccupied
  | Some n =>
      setSelectedSlot n ;;
      setShowImportDialog true
  end.

(** [handleQRImport] of the render [r], up to its [await], acting on the
    hook state [h]: the guard and the arguments of the call are the
    [qrData] and [selectedSlot] of [r]; [importing] is not read. *)
Definition handleQRImport_begin_in (r h : World)
  : World * option (jsstring * Z) :=
  let payload := qrData r in
  let target := selectedSlot r in
  if negb (truthy (trim payload)) then (emit (ToastError msgEmptyPayload) h, None)
  else (emit (ImportFromQR payload target) (with_importing true h),
        Some (payload, target)).

Inductive LiveEvent :=
| Ui (ev : Event)
| Commit.

(** The events of the component with the re-render as an event of its own:
    [Commit] makes the current hook values the rendered ones.  Whether a
    control fires is decided by the last committed render. *)
Definition stepLive (ev : LiveEvent) (l : Live) : option Live :=
  let r := rendered l in
  let h := hooks l in
  match ev with
  | Commit => Some (mkLive h h (pending l))
  | Ui ClickImportAccount =>
      if importAccountDisabled r then None
      else Some (mkLive (snd (handleImportAccount_in r h)) r (pending l))
  | Ui (OpenChange open) =>
      Some (mkLive (with_showImportDialog open h) r (pending l))
  | Ui ClickPasteData =>
      if showImportDialog r
      then Some (mkLive (with_importMethod file h) r (pending l))
      else None
  | Ui (ChangeQrData value) =>
      if showImportDialog r
      then Some (mkLive (with_qrData value h) r (pending l))
      else None
  | Ui ClickCancel =>
      if showImportDialog r
      then Some (mkLive (with_showImportDialog false h) r (pending l))
      else None
  | Ui ClickImport =>
      if showImportDialog r && negb (importDisabled r) then
        let '(h1, call) := handleQRImport_begin_in r h in
        Some (mkLive h1 r (match call with
                           | Some _ => S (pending l)
                           | None => pending l
                           end))
      else None
  | Ui (Settled res reg) =>
      match pending l with
      | O => None
      | S n =>
          Some (mkLive (snd (handleQRImport_resume res (with_registry reg h)))
                       r n)
      end
  end.

Fixpoint runLive (evs : list LiveEvent) (l : Live) : option Live :=
  match evs with
  | [] => Some l
  | ev :: evs' =>
      match stepLive ev l with
      | Some l' => runLive evs' l'
      | None => None
      end
  end.

(** Whether, along the run of [evs] from [l], every click on Import is
    handled on a render that shows the current value of [importing]. *)
Fixpoint freshClicks (evs : list LiveEvent) (l : Live) : bool :=
  match evs with
  | [] => true
  | ev :: evs' =>
      match ev with
      | Ui ClickImport => Bool.eqb (importing (rendered l)) (importing (hooks l))
      | _ => true
      end
      && match stepLive ev l with
         | Some l' => freshClicks evs' l'
         | None => true
         end
  end.

(** The flag and the count of pending promises move together. *)
Definition flagTracksPending (l : Live) : Prop :=
  pending l = if importing (hooks l) then 1 else 0.

(** ** The import target as the lowest-numbered empty slot *)

Definition lowestEmptyChosen (w : World) : Prop :=
  exists s,
    In s (accounts w) /\ isEmpty s = true
    /\ (forall s', In s' (accounts w) -> isEmpty s' = true ->
                   (slot s <= slot s')%Z)
    /\ handleImportAccount w
       = (Normal tt, with_showImportDialog true (with_selectedSlot (slot s) w)).

(** * Properties *)

(** ** Strings *)

Lemma split_not_nil (sep : codeunit) (s : jsstring) : split sep s <> [].
Proof.
  destruct s as [|c s]; simpl; [discriminate|].
  destruct (N.eqb c sep); [discriminate|].
  destruct (split sep s); discriminate.
Qed.

Lemma split_cons_other (sep c : codeunit) (s : jsstring) :
  N.eqb c sep = false ->
  exists w ws, split sep s = w :: ws /\ split sep (c :: s) = (c :: w) :: ws.
Proof.
  intros Hc. simpl. rewrite Hc.
  destruct (split sep s) as [|w ws] eqn:E.
  - exfalso. now apply (split_not_nil sep s).
  - now exists w, ws.
Qed.

Lemma split_cons_sep (sep c : codeunit) (s : jsstring) :
  N.eqb c sep = true -> split sep (c :: s) = [] :: split sep s.
Proof. intros Hc. simpl. now rewrite Hc. Qed.

Lemma words_cons_letter (c : codeunit) (s : jsstring) :
  N.eqb c space = false ->
  exists w ws, words (c :: s) = (c :: w) :: ws.
Proof.
  intros Hc. simpl. rewrite Hc.
  destruct s as [|d s]; [now exists [], []|].
  destruct (N.eqb d space); [now eexists [], _|].
  destruct (words (d :: s)) as [|w ws]; [now exists [], []|now exists w, ws].
Qed.

Lemma words_cons2 (c d : codeunit) (s : jsstring) :
  words (c :: d :: s)
  = if N.eqb c space then words (d :: s)
    else if N.eqb d space then [c] :: words (d :: s)
         else match words (d :: s) with
              | w :: ws => (c :: w) :: ws
              | [] => [[c]]
              end.
Proof. reflexivity. Qed.

(** The units the code joins are the first letters of the words. *)
Lemma join_index0_split (s : jsstring) :
  join_empty (map (fun word => index0 word) (split space s))
  = concat (map firstLetter (words s)).
Proof.
  induction s as [|c s IH]; [reflexivity|].
  destruct (N.eqb c space) eqn:Hc.
  - simpl. rewrite Hc. simpl. exact IH.
  - destruct (split_cons_other space c s Hc) as (w & ws & Es & Ecs).
    rewrite Ecs. cbn [map index0 join_empty app].
    destruct s as [|d s].
    + simpl in Es. injection Es as <- <-. simpl. rewrite Hc. reflexivity.
    + rewrite words_cons2, Hc.
      destruct (N.eqb d space) eqn:Hd.
      * cbn [map concat firstLetter firstn app]. f_equal.
        rewrite <- IH. rewrite (split_cons_sep space d s Hd) in Es |- *.
        injection Es as <- <-. reflexivity.
      * destruct (words_cons_letter d s Hd) as (w' & ws' & Ew).
        rewrite Ew in IH |- *.
        destruct (split_cons_other space d s Hd) as (w0 & ws0 & _ & Eds).
        rewrite Eds in Es. injection Es as <- <-.
        rewrite Eds in IH.
        cbn [map concat firstLetter firstn app index0 join_empty] in IH |- *.
        injection IH as ->. reflexivity.
Qed.

Lemma split_app_sep (sep : codeunit) (a b : jsstring) :
  split sep (a ++ sep :: b) = split sep a ++ split sep b.
Proof.
  induction a as [|c a IH].
  - simpl. now rewrite N.eqb_refl.
  - destruct (N.eqb c sep) eqn:Hc.
    + rewrite <- app_comm_cons, !(split_cons_sep sep c _ Hc), IH. reflexivity.
    + destruct (split_cons_other sep c a Hc) as (w & ws & Ea & Eca).
      rewrite Eca. simpl. rewrite Hc, IH, Ea. reflexivity.
Qed.

Lemma join_empty_app (xs ys : list (option jsstring)) :
  join_empty (xs ++ ys) = join_empty xs ++ join_empty ys.
Proof.
  induction xs as [|[x|] xs IH]; simpl; [reflexivity| |exact IH].
  now rewrite IH, app_assoc.
Qed.

(** A space cuts the name in two, and the letters joined are those of the
    two parts. *)
Lemma join_index0_app_space (a b : jsstring) :
  join_empty (map (fun word => index0 word) (split space (a ++ space :: b)))
  = join_empty (map (fun word => index0 word) (split space a))
    ++ join_empty (map (fun word => index0 word) (split space b)).
Proof. now rewrite split_app_sep, map_app, join_empty_app. Qed.

(** Every word of the data-model wording is non-empty and free of spaces. *)
Lemma words_wellformed (s : jsstring) :
  Forall (fun w => w <> [] /\ Forall (fun c => N.eqb c space = false) w)
         (words s).
Proof.
  induction s as [|c s IH]; [constructor|].
  destruct s as [|d s].
  - simpl. destruct (N.eqb c space) eqn:Hc; repeat constructor;
      [discriminate|assumption].
  - rewrite words_cons2.
    destruct (N.eqb c space) eqn:Hc; [exact IH|].
    destruct (N.eqb d space) eqn:Hd.
    + constructor; [|exact IH]. split; [discriminate|now repeat constructor].
    + destruct (words (d :: s)) as [|w ws].
      * repeat constructor; [discriminate|assumption].
      * inversion IH as [|? ? [_ Hw] Hws]; subst.
        constructor; [|exact Hws]. split; [discriminate|now constructor].
Qed.

(** The words, put end to end, are the name without its spaces. *)
Lemma words_concat (s : jsstring) :
  concat (words s) = filter (fun c => negb (N.eqb c space)) s.
Proof.
  induction s as [|c s IH]; [reflexivity|].
  destruct s as [|d s].
  - simpl. now destruct (N.eqb c space).
  - rewrite words_cons2. cbn [filter] in IH |- *.
    destruct (N.eqb c space) eqn:Hc; cbn [negb]; [exact IH|].
    destruct (N.eqb d space) eqn:Hd; cbn [negb] in IH |- *.
    + cbn [concat app]. now rewrite IH.
    + destruct (words_cons_letter d s Hd) as (w & ws & Ew).
      rewrite Ew in IH |- *. cbn [concat app] in IH |- *. now rewrite IH.
Qed.

Lemma slice_0_length (n : nat) (s : jsstring) : length (slice 0 n s) <= n.
Proof.
  unfold slice. rewrite Nat.sub_0_r. simpl. apply firstn_le_length.
Qed.

Lemma trim_nil : trim [] = [].
Proof. reflexivity. Qed.

Section InitialsProps.

Variable toUpperCase : jsstring -> jsstring.

(** C6: for every name, [getInitials] is the first letter of each
    space-separated word of the name, concatenated, uppercased and
    truncated to 2 characters. *)
Theorem getInitials_refines_spec (name : jsstring) :
  getInitials toUpperCase name = initials_spec toUpperCase name.
Proof.
  unfold getInitials, initials_spec, slice.
  rewrite join_index0_split. reflexivity.
Qed.

(** C10: for every input string [getInitials] yields a string of at
    most 2 code units; the empty name yields the (truncated) upper case of
    the empty string, and an empty word between two consecutive spaces
    contributes no character. *)
Theorem getInitials_total_bounded (name : jsstring) :
  length (getInitials toUpperCase name) <= 2
  /\ getInitials toUpperCase [] = slice 0 2 (toUpperCase [])
  /\ (forall a b,
         getInitials toUpperCase (a ++ space :: space :: b)
         = getInitials toUpperCase (a ++ space :: b)).
Proof.
  split; [apply slice_0_length|]. split; [reflexivity|].
  intros a b. unfold getInitials.
  rewrite !join_index0_app_space.
  now rewrite (split_cons_sep space space b (N.eqb_refl _)).
Qed.

(** C7: for every bound account the avatar token shown is the account's
    [avatar] when that is present and non-empty, and otherwise the
    initials derived from the account's name. *)
Theorem avatarFallback_bound (accountSlot : AccountSlot) (a : Account) :
  account accountSlot = Some a ->
  avatarFallback toUpperCase accountSlot
  = match avatar a with
    | Some (c :: rest) => c :: rest
    | Some [] | None => getInitials toUpperCase (name a)
    end.
Proof.
  intros Ha. unfold avatarFallback. rewrite Ha. simpl.
  assert (Hn : (if truthy (name a) then name a else []) = name a)
    by (destruct (name a); reflexivity).
  rewrite Hn. destruct (avatar a) as [[|c rest]|]; reflexivity.
Qed.

End InitialsProps.

Example getInitials_two_words :
  getInitials toUpperCase_basic (str "john  ronald doe") = str "JR".
Proof. reflexivity. Qed.

Example getInitials_single_word :
  getInitials toUpperCase_basic (str "alice") = str "A".
Proof. reflexivity. Qed.

Example getInitials_sharp_s :
  getInitials toUpperCase_basic [223%N; 32%N; 97%N] = str "SS".
Proof. reflexivity. Qed.

Example words_of_padded_name :
  words (str " john  ronald doe ") = [str "john"; str "ronald"; str "doe"].
Proof. reflexivity. Qed.

Example trim_strips_both_ends :
  trim ([9%N; 32%N] ++ str "a b" ++ [10%N; 160%N]) = str "a b".
Proof. reflexivity. Qed.

(** The avatar wins when present, the initials stand in otherwise. *)
Lemma avatarFallback_bound_witness :
  avatarFallback toUpperCase_basic
    (mkSlot 2 false (Some (mkAccount (str "id-1") (str "alice b") None (str "2024"))))
  = str "AB".
Proof.
  exact (avatarFallback_bound toUpperCase_basic
           (mkSlot 2 false
              (Some (mkAccount (str "id-1") (str "alice b") None (str "2024"))))
           (mkAccount (str "id-1") (str "alice b") None (str "2024"))
           eq_refl).
Defined.

(** ** [handleImportAccount] *)

Lemma find_none_all_occupied (accs : list AccountSlot) :
  (forall s, In s accs -> isEmpty s = false) ->
  find (fun acc => isEmpty acc) accs = None.
Proof.
  induction accs as [|a accs IH]; intros H; [reflexivity|].
  simpl. rewrite (H a (or_introl eq_refl)).
  apply IH. intros s Hs. apply H. now right.
Qed.

(** C2: when no slot of the list is empty, [handleImportAccount] only shows
    the all-slots-occupied notification: the dialog that asks for the
    payload is not opened, no target is selected and [importFromQR] is not
    called. *)
Theorem handleImportAccount_all_occupied (w : World) :
  (forall s, In s (accounts w) -> isEmpty s = false) ->
  handleImportAccount w = (Normal tt, emit (ToastError msgAllSlotsOccupied) w).
Proof.
  intros H. unfold handleImportAccount, bind, read, availableSlot.
  now rewrite (find_none_all_occupied _ H).
Qed.

Lemma handleImportAccount_all_occupied_witness :
  handleImportAccount
    (initialWorld [mkSlot 1 false None; mkSlot 2 false None] [])
  = (Normal tt,
     emit (ToastError msgAllSlotsOccupied)
       (initialWorld [mkSlot 1 false None; mkSlot 2 false None] [])).
Proof.
  apply (handleImportAccount_all_occupied
           (initialWorld [mkSlot 1 false None; mkSlot 2 false None] [])).
  simpl. intros s [<-|[<-|[]]]; reflexivity.
Defined.

(** In a list in slot order the first empty slot is the lowest-numbered. *)
Lemma find_empty_lowest (accs : list AccountSlot) :
  inSlotOrder accs = true ->
  (exists s, In s accs /\ isEmpty s = true) ->
  exists s,
    find (fun acc => isEmpty acc) accs = Some s
    /\ In s accs /\ isEmpty s = true
    /\ (forall s', In s' accs -> isEmpty s' = true -> (slot s <= slot s')%Z).
Proof.
  induction accs as [|a accs IH]; intros Hord (s0 & Hin & He).
  - destruct Hin.
  - simpl in Hord. apply andb_true_iff in Hord as [Ha Hrest].
    simpl. destruct (isEmpty a) eqn:Hea.
    + exists a. repeat split; [now left|assumption|].
      intros s' [<-|Hs'] _; [apply Z.le_refl|].
      rewrite forallb_forall in Ha. now apply Z.leb_le, Ha.
    + destruct (IH Hrest) as (s & Hf & Hs & Hes & Hlow).
      * destruct Hin as [<-|Hin]; [congruence|now exists s0].
      * exists s. repeat split; [assumption|now right|assumption|].
        intros s' [<-|Hs'] He'; [congruence|now apply Hlow].
Qed.

(** C3, amended: on a slot list in slot-number order with positive slot
    numbers and at least one empty slot, [handleImportAccount] selects the
    lowest-numbered empty slot as the import target and opens the dialog. *)
Theorem handleImportAccount_lowest_empty (w : World) :
  inSlotOrder (accounts w) = true ->
  positiveSlots (accounts w) = true ->
  (exists s, In s (accounts w) /\ isEmpty s = true) ->
  exists s,
    In s (accounts w) /\ isEmpty s = true
    /\ (forall s', In s' (accounts w) -> isEmpty s' = true ->
                   (slot s <= slot s')%Z)
    /\ handleImportAccount w
       = (Normal tt, with_showImportDialog true (with_selectedSlot (slot s) w)).
Proof.
  intros Hord Hpos Hex.
  destruct (find_empty_lowest _ Hord Hex) as (s & Hf & Hs & Hes & Hlow).
  exists s. repeat split; try assumption.
  unfold handleImportAccount, bind, read, availableSlot. rewrite Hf. simpl.
  unfold positiveSlots in Hpos. rewrite forallb_forall in Hpos.
  specialize (Hpos s Hs). apply Z.ltb_lt in Hpos.
  destruct (slot s); [lia|reflexivity|reflexivity].
Qed.

Lemma handleImportAccount_lowest_empty_witness :
  exists s,
    In s (accounts (initialWorld
                      [mkSlot 1 false None; mkSlot 2 true None; mkSlot 3 true None] []))
    /\ isEmpty s = true
    /\ (forall s',
          In s' (accounts (initialWorld
                   [mkSlot 1 false None; mkSlot 2 true None; mkSlot 3 true None] []))
          -> isEmpty s' = true -> (slot s <= slot s')%Z)
    /\ handleImportAccount
         (initialWorld
            [mkSlot 1 false None; mkSlot 2 true None; mkSlot 3 true None] [])
       = (Normal tt,
          with_showImportDialog true
            (with_selectedSlot (slot s)
               (initialWorld
                  [mkSlot 1 false None; mkSlot 2 true None; mkSlot 3 true None] []))).
Proof.
  apply (handleImportAccount_lowest_empty
           (initialWorld
              [mkSlot 1 false None; mkSlot 2 true None; mkSlot 3 true None] [])).
  - reflexivity.
  - reflexivity.
  - exists (mkSlot 2 true None). split; [simpl; tauto|reflexivity].
Defined.

(** C3, as stated, fails: the search takes the first empty slot in list
    order, which is not the lowest-numbered one when the list is out of
    slot order, and it takes none when that slot is numbered 0. *)
Lemma lowest_empty_not_chosen :
  ((exists s, In s (accounts (initialWorld
                               [mkSlot 2 true None; mkSlot 1 true None] []))
              /\ isEmpty s = true)
   /\ ~ lowestEmptyChosen
         (initialWorld [mkSlot 2 true None; mkSlot 1 true None] []))
  /\ ((exists s, In s (accounts (initialWorld [mkSlot 0 true None] []))
                 /\ isEmpty s = true)
      /\ ~ lowestEmptyChosen (initialWorld [mkSlot 0 true None] [])).
Proof.
  split; split.
  - exists (mkSlot 2 true None). split; [now left|reflexivity].
  - intros (s & _ & _ & Hlow & Heq).
    assert (Hs : slot s = 2%Z)
      by (apply (f_equal (fun r => selectedSlot (snd r))) in Heq;
          simpl in Heq; congruence).
    specialize (Hlow (mkSlot 1 true None) (or_intror (or_introl eq_refl))
                     eq_refl).
    simpl in Hlow. lia.
  - exists (mkSlot 0 true None). split; [now left|reflexivity].
  - intros (s & _ & _ & _ & Heq).
    apply (f_equal (fun r => log (snd r))) in Heq. discriminate Heq.
Qed.

Example handleImportAccount_picks_slot_2 :
  selectedSlot
    (snd (handleImportAccount
            (initialWorld
               [mkSlot 1 false None; mkSlot 2 true None; mkSlot 3 true None] [])))
  = 2%Z.
Proof. reflexivity. Qed.

(** Outside the invariants the search is by list position, and a slot
    numbered 0 counts as no slot at all. *)
Example handleImportAccount_list_order :
  selectedSlot
    (snd (handleImportAccount
            (initialWorld [mkSlot 2 true None; mkSlot 1 true None] [])))
  = 2%Z.
Proof. reflexivity. Qed.

Example handleImportAccount_slot_zero :
  handleImportAccount (initialWorld [mkSlot 0 true None] [])
  = (Normal tt,
     emit (ToastError msgAllSlotsOccupied) (initialWorld [mkSlot 0 true None] [])).
Proof. reflexivity. Qed.

(** ** [handleQRImport] *)

Section HandlerProps.

Variable importFromQR :
  jsstring -> Z -> list AccountSlot -> Completion unit * list AccountSlot.

(** The handler on a payload that is not blank, statement by statement. *)
Lemma handleQRImport_nonblank (w : World) :
  truthy (trim (qrData w)) = true ->
  handleQRImport importFromQR w
  = let w1 := emit (ImportFromQR (qrData w) (selectedSlot w))
                (with_importing true w) in
    match importFromQR (qrData w) (selectedSlot w) (registry w) with
    | (Normal _, reg') =>
        (Normal tt,
         with_importing false
           (emit Reload
              (with_qrData []
                 (with_showImportDialog false
                    (emit (ToastSuccess msgImported) (with_registry reg' w1))))))
    | (Throw _, reg') =>
        (Normal tt,
         with_importing false
           (emit (ToastError msgImportFailed) (with_registry reg' w1)))
    end.
Proof.
  intros Hp. unfold handleQRImport, bind, read. rewrite Hp. simpl.
  unfold tryCatchFinally, bind, await_importFromQR, setImporting, modify.
  simpl.
  destruct (importFromQR (qrData w) (selectedSlot w) (registry w))
    as [[[]|e] reg']; reflexivity.
Qed.

Lemma handleQRImport_blank (w : World) :
  truthy (trim (qrData w)) = false ->
  handleQRImport importFromQR w
  = (Normal tt, emit (ToastError msgEmptyPayload) w).
Proof.
  intros Hp. unfold handleQRImport, bind, read. now rewrite Hp.
Qed.

(** The handler run to completion is its synchronous part, the
    collaborator, and the resumption after the [await]. *)
Lemma handleQRImport_begin_resume (w : World) :
  handleQRImport importFromQR w
  = match handleQRImport_begin w with
    | (w1, None) => (Normal tt, w1)
    | (w1, Some (payload, target)) =>
        let '(r, reg') := importFromQR payload target (registry w1) in
        handleQRImport_resume r (with_registry reg' w1)
    end.
Proof.
  unfold handleQRImport_begin.
  destruct (truthy (trim (qrData w))) eqn:Hp; simpl.
  - rewrite (handleQRImport_nonblank w Hp). simpl.
    destruct (importFromQR (qrData w) (selectedSlot w) (registry w))
      as [[[]|e] reg']; reflexivity.
  - apply (handleQRImport_blank w Hp).
Qed.

(** C1: on a payload that is empty after trimming, [handleQRImport] only
    shows the empty-payload notification: the call to [importFromQR] is
    not issued and no hook value nor the registry changes, whatever the
    collaborator would have done. *)
Theorem handleQRImport_empty_payload (w : World) :
  trim (qrData w) = [] ->
  handleQRImport importFromQR w
  = (Normal tt, emit (ToastError msgEmptyPayload) w)
  /\ handleQRImport_begin w = (emit (ToastError msgEmptyPayload) w, None).
Proof.
  intros Hp. split.
  - apply handleQRImport_blank. now rewrite Hp.
  - unfold handleQRImport_begin. now rewrite Hp.
Qed.

(** The component has no setter for the slot list. *)
Lemma handleQRImport_accounts (w : World) :
  accounts (snd (handleQRImport importFromQR w)) = accounts w.
Proof.
  destruct (truthy (trim (qrData w))) eqn:Hp.
  - rewrite (handleQRImport_nonblank w Hp). simpl.
    destruct (importFromQR (qrData w) (selectedSlot w) (registry w))
      as [[[]|e] reg']; reflexivity.
  - now rewrite (handleQRImport_blank w Hp).
Qed.

(** C9: when the import does not succeed (blank payload, or
    [importFromQR] throws) the payload text, the selected slot and the
    open state of the dialog are as before; when it succeeds the payload
    is cleared to the empty string and the dialog is closed. *)
Theorem handleQRImport_retry_frame (w : World) :
  let w' := snd (handleQRImport importFromQR w) in
  (importSucceeds importFromQR w = false ->
     qrData w' = qrData w
     /\ selectedSlot w' = selectedSlot w
     /\ showImportDialog w' = showImportDialog w)
  /\ (importSucceeds importFromQR w = true ->
        qrData w' = [] /\ showImportDialog w' = false).
Proof.
  unfold importSucceeds.
  destruct (truthy (trim (qrData w))) eqn:Hp; simpl.
  - rewrite (handleQRImport_nonblank w Hp). simpl.
    destruct (importFromQR (qrData w) (selectedSlot w) (registry w))
      as [[[]|e] reg']; simpl; split; intros H; try discriminate H;
      repeat split.
  - rewrite (handleQRImport_blank w Hp). simpl.
    split; intros H; [repeat split|discriminate H].
Qed.

(** Whatever [importFromQR] throws, the component shows the same text. *)
Lemma handleQRImport_failure_log (w : World) (e : ErrorKind) :
  truthy (trim (qrData w)) = true ->
  fst (importFromQR (qrData w) (selectedSlot w) (registry w)) = Throw e ->
  log (snd (handleQRImport importFromQR w))
  = log w ++ [ImportFromQR (qrData w) (selectedSlot w);
              ToastError msgImportFailed].
Proof.
  intros Hp Hr. rewrite (handleQRImport_nonblank w Hp). simpl.
  destruct (importFromQR (qrData w) (selectedSlot w) (registry w))
    as [[[]|e'] reg']; simpl in *; [discriminate|].
  now rewrite <- app_assoc.
Qed.

End HandlerProps.

Lemma handleQRImport_empty_payload_witness :
  handleQRImport (fun _ _ _ => (Normal tt, []))
    (with_qrData [32%N; 10%N; 9%N] (initialWorld [] [mkSlot 1 true None]))
  = (Normal tt,
     emit (ToastError msgEmptyPayload)
       (with_qrData [32%N; 10%N; 9%N] (initialWorld [] [mkSlot 1 true None])))
  /\ handleQRImport_begin
       (with_qrData [32%N; 10%N; 9%N] (initialWorld [] [mkSlot 1 true None]))
     = (emit (ToastError msgEmptyPayload)
          (with_qrData [32%N; 10%N; 9%N] (initialWorld [] [mkSlot 1 true None])),
        None).
Proof.
  apply (handleQRImport_empty_payload (fun _ _ _ => (Normal tt, []))
           (with_qrData [32%N; 10%N; 9%N] (initialWorld [] [mkSlot 1 true None]))).
  reflexivity.
Defined.

Lemma handleQRImport_retry_frame_witness :
  qrData (snd (handleQRImport (rejecting DecodeError)
                 (with_showImportDialog true
                    (with_qrData (str "garbage") (initialWorld [] [])))))
  = str "garbage"
  /\ showImportDialog
       (snd (handleQRImport (rejecting DecodeError)
               (with_showImportDialog true
                  (with_qrData (str "garbage") (initialWorld [] [])))))
     = true
  /\ qrData (snd (handleQRImport (fun _ _ reg => (Normal tt, reg))
                    (with_showImportDialog true
                       (with_qrData (str "blob") (initialWorld [] [])))))
     = [].
Proof.
  split; [|split].
  - apply (handleQRImport_retry_frame (rejecting DecodeError)
             (with_showImportDialog true
                (with_qrData (str "garbage") (initialWorld [] [])))).
    reflexivity.
  - apply (handleQRImport_retry_frame (rejecting DecodeError)
             (with_showImportDialog true
                (with_qrData (str "garbage") (initialWorld [] [])))).
    reflexivity.
  - apply (handleQRImport_retry_frame (fun _ _ reg => (Normal tt, reg))
             (with_showImportDialog true
                (with_qrData (str "blob") (initialWorld [] [])))).
    reflexivity.
Defined.

(** ** The resolver: no partial commit *)

Section ResolverProps.

Variable decode : jsstring -> option Account.
Variable save : list AccountSlot -> bool.

(** A bind that fails hands the registry back as it got it. *)
Lemma bindAccount_throw_unchanged (n : Z) (a : Account)
    (slots : list AccountSlot) (e : ErrorKind) :
  fst (bindAccount save n a slots) = Throw e ->
  snd (bindAccount save n a slots) = slots.
Proof.
  unfold bindAccount.
  destruct (find (fun s => Z.eqb (slot s) n) slots) as [s|]; [|reflexivity].
  destruct (isEmpty s); [|reflexivity].
  destruct (save _); [discriminate|reflexivity].
Qed.

Lemma importFromQR_spec_throw_unchanged (payload : jsstring) (target : Z)
    (slots : list AccountSlot) (e : ErrorKind) :
  fst (importFromQR_spec decode save payload target slots) = Throw e ->
  snd (importFromQR_spec decode save payload target slots) = slots.
Proof.
  unfold importFromQR_spec.
  destruct (decode payload) as [a|]; [|reflexivity].
  apply bindAccount_throw_unchanged.
Qed.

Lemma importFromQR_spec_decode_error (payload : jsstring) (target : Z)
    (slots : list AccountSlot) :
  decode payload = None ->
  importFromQR_spec decode save payload target slots
  = (Throw DecodeError, slots).
Proof. intros H. unfold importFromQR_spec. now rewrite H. Qed.

(** C4: for every payload and target slot, when the import step throws
    (a decode error in particular), the registry and the slot list after
    [handleQRImport] are the ones before it: nothing is bound. *)
Theorem handleQRImport_failure_no_commit (w : World) :
  (decode (qrData w) = None
   \/ exists e,
        fst (importFromQR_spec decode save (qrData w) (selectedSlot w)
               (registry w)) = Throw e) ->
  registry (snd (handleQRImport (importFromQR_spec decode save) w))
  = registry w
  /\ accounts (snd (handleQRImport (importFromQR_spec decode save) w))
     = accounts w.
Proof.
  intros H. split; [|apply handleQRImport_accounts].
  assert (He : exists e,
             fst (importFromQR_spec decode save (qrData w) (selectedSlot w)
                    (registry w)) = Throw e).
  { destruct H as [Hd|He]; [|exact He].
    exists DecodeError. now rewrite importFromQR_spec_decode_error. }
  destruct He as (e & He).
  destruct (truthy (trim (qrData w))) eqn:Hp.
  - rewrite (handleQRImport_nonblank _ w Hp).
    pose proof (importFromQR_spec_throw_unchanged _ _ _ _ He) as Hu.
    destruct (importFromQR_spec decode save (qrData w) (selectedSlot w)
                (registry w)) as [[[]|e'] reg']; simpl in *;
      [discriminate|exact Hu].
  - now rewrite (handleQRImport_blank _ w Hp).
Qed.

End ResolverProps.

Lemma handleQRImport_failure_no_commit_witness :
  registry
    (snd (handleQRImport (importFromQR_spec (fun _ => None) (fun _ => true))
            (with_qrData (str "garbage")
               (initialWorld [mkSlot 1 true None] [mkSlot 1 true None]))))
  = [mkSlot 1 true None]
  /\ accounts
       (snd (handleQRImport (importFromQR_spec (fun _ => None) (fun _ => true))
               (with_qrData (str "garbage")
                  (initialWorld [mkSlot 1 true None] [mkSlot 1 true None]))))
     = [mkSlot 1 true None].
Proof.
  apply (handleQRImport_failure_no_commit (fun _ => None) (fun _ => true)
           (with_qrData (str "garbage")
              (initialWorld [mkSlot 1 true None] [mkSlot 1 true None]))).
  left. reflexivity.
Defined.

(** A valid payload into an empty slot binds it, and only it. *)
Example import_binds_the_target :
  registry
    (snd (handleQRImport
            (importFromQR_spec
               (fun _ => Some (mkAccount (str "k1") (str "Bob") None (str "t")))
               (fun _ => true))
            (with_qrData (str "blob")
               (initialWorld []
                  [mkSlot 1 true None;
                   mkSlot 2 false
                     (Some (mkAccount (str "k0") (str "Alice") None (str "t")));
                   mkSlot 3 true None]))))
  = [mkSlot 1 false (Some (mkAccount (str "k1") (str "Bob") None (str "t")));
     mkSlot 2 false (Some (mkAccount (str "k0") (str "Alice") None (str "t")));
     mkSlot 3 true None].
Proof. reflexivity. Qed.

(** ** Notifications *)

(** The notification of a thrown error is what any failing submission
    adds to the toasts already shown. *)
Lemma notification_of_thrown
    (importFromQR :
       jsstring -> Z -> list AccountSlot -> Completion unit * list AccountSlot)
    (w : World) (e : ErrorKind) :
  thrownByImport e = true ->
  truthy (trim (qrData w)) = true ->
  fst (importFromQR (qrData w) (selectedSlot w) (registry w)) = Throw e ->
  errorToasts (log (snd (handleQRImport importFromQR w)))
  = errorToasts (log w) ++ notification e.
Proof.
  intros He Hp Hr.
  rewrite (handleQRImport_failure_log importFromQR w e Hp Hr).
  unfold errorToasts. rewrite flat_map_app.
  destruct e; try discriminate He; reflexivity.
Qed.

(** C5, as stated, fails: a decode error and an occupied slot are two
    errors of the import flow with one and the same notification. *)
Lemma notifications_not_distinct :
  ~ (forall e1 e2,
        In e1 importFlowErrors -> In e2 importFlowErrors ->
        e1 <> e2 -> notification e1 <> notification e2).
Proof.
  intros H.
  apply (H DecodeError SlotOccupied).
  - simpl. tauto.
  - simpl. tauto.
  - discriminate.
  - reflexivity.
Qed.

(** C5, amended: two errors have the same notification exactly when they
    are the same error or are both thrown by [importFromQR], for which the
    component has one generic text; the all-slots-occupied, the
    empty-payload and the generic notification are pairwise distinct. *)
Theorem notification_classes (e1 e2 : ErrorKind) :
  notification e1 = notification e2
  <-> (e1 = e2 \/ (thrownByImport e1 = true /\ thrownByImport e2 = true)).
Proof.
  split.
  - destruct e1, e2; intros H;
      first [ left; reflexivity
            | right; split; reflexivity
            | vm_compute in H; discriminate H ].
  - intros [->|[H1 H2]]; [reflexivity|].
    destruct e1, e2; first [reflexivity | discriminate H1 | discriminate H2].
Qed.

Lemma notification_classes_witness :
  notification InvalidSlot = notification SlotOccupied
  /\ notification EmptyPayload <> notification DecodeError.
Proof.
  split.
  - apply (proj2 (notification_classes InvalidSlot SlotOccupied)).
    right. split; reflexivity.
  - intros H.
    destruct (proj1 (notification_classes EmptyPayload DecodeError) H)
      as [E|[E _]]; discriminate E.
Defined.

(** ** One import in flight *)

Lemma handleQRImport_resume_resets (r : Completion unit) (w : World) :
  importing (snd (handleQRImport_resume r w)) = false.
Proof. destruct r as [[]|e]; reflexivity. Qed.

Lemma handleImportAccount_in_importing (r h : World) :
  importing (snd (handleImportAccount_in r h)) = importing h.
Proof.
  unfold handleImportAccount_in.
  destruct (availableSlot (accounts r)) as [[|n|n]|]; reflexivity.
Qed.

Lemma handleQRImport_begin_in_issues (r h h1 : World) (call : jsstring * Z) :
  handleQRImport_begin_in r h = (h1, Some call) -> importing h1 = true.
Proof.
  unfold handleQRImport_begin_in.
  destruct (negb (truthy (trim (qrData r)))); intros H; [discriminate|].
  now injection H as <- _.
Qed.

Lemma rendered_importing_disables (l : Live) :
  importing (rendered l) = true -> stepLive (Ui ClickImport) l = None.
Proof.
  intros H. simpl. unfold importDisabled. rewrite H.
  now destruct (showImportDialog (rendered l)).
Qed.

(** The handlers of a render that shows the current hook values are the
    handlers of the run-to-completion model. *)
Lemma handlers_of_current_render (w : World) :
  handleImportAccount_in w w = handleImportAccount w
  /\ handleQRImport_begin_in w w = handleQRImport_begin w.
Proof. split; reflexivity. Qed.

(** [step] is [stepLive] on a committed page, followed by the commit. *)
Lemma step_is_committed_stepLive (ev : Event) (p : Page) :
  match step ev p with
  | Some p' => runLive [Ui ev; Commit] (committed p) = Some (committed p')
  | None => stepLive (Ui ev) (committed p) = None
  end.
Proof.
  destruct ev; simpl.
  - now destruct (importAccountDisabled (world p)).
  - reflexivity.
  - now destruct (showImportDialog (world p)).
  - now destruct (showImportDialog (world p)).
  - now destruct (showImportDialog (world p)).
  - destruct (showImportDialog (world p) && negb (importDisabled (world p)));
      [|reflexivity].
    change (handleQRImport_begin_in (world p) (world p))
      with (handleQRImport_begin (world p)).
    now destruct (handleQRImport_begin (world p)).
  - now destruct (inFlight p).
Qed.

Lemma stepLive_preserves_flag (ev : LiveEvent) (l l' : Live) :
  flagTracksPending l ->
  (ev = Ui ClickImport -> importing (rendered l) = importing (hooks l)) ->
  stepLive ev l = Some l' ->
  flagTracksPending l'.
Proof.
  unfold flagTracksPending. intros Hinv Hfresh Hstep.
  destruct ev as [[| | | | | |res reg]|]; simpl in Hstep.
  - destruct (importAccountDisabled (rendered l)); [discriminate|].
    injection Hstep as <-. simpl.
    now rewrite handleImportAccount_in_importing.
  - now injection Hstep as <-.
  - destruct (showImportDialog (rendered l)); [|discriminate].
    now injection Hstep as <-.
  - destruct (showImportDialog (rendered l)); [|discriminate].
    now injection Hstep as <-.
  - destruct (showImportDialog (rendered l)); [|discriminate].
    now injection Hstep as <-.
  - destruct (showImportDialog (rendered l)); [|discriminate].
    unfold importDisabled, handleQRImport_begin_in in Hstep.
    specialize (Hfresh eq_refl).
    destruct (importing (rendered l)); [discriminate|].
    destruct (truthy (trim (qrData (rendered l)))); [|discriminate].
    simpl in Hstep. injection Hstep as <-. simpl.
    rewrite Hinv, <- Hfresh. reflexivity.
  - destruct (pending l) as [|n] eqn:Hn; [discriminate|].
    injection Hstep as <-. simpl.
    rewrite handleQRImport_resume_resets.
    destruct (importing (hooks l)); [now injection Hinv|discriminate].
  - now injection Hstep as <-.
Qed.

Lemma runLive_preserves_flag (evs : list LiveEvent) (l l' : Live) :
  flagTracksPending l ->
  freshClicks evs l = true ->
  runLive evs l = Some l' ->
  flagTracksPending l'.
Proof.
  revert l. induction evs as [|ev evs IH]; intros l Hinv Hfresh Hrun.
  - simpl in Hrun. now injection Hrun as <-.
  - simpl in Hrun, Hfresh.
    destruct (stepLive ev l) as [l1|] eqn:Hstep; [|discriminate].
    apply andb_true_iff in Hfresh as [Hclick Hrest].
    apply (IH l1); [|exact Hrest|exact Hrun].
    apply (stepLive_preserves_flag ev l l1 Hinv); [|exact Hstep].
    intros ->. now apply eqb_prop.
Qed.

(** C8, as stated, fails: [handleQRImport] does not test [importing], and
    the button is as the last committed render left it, so two clicks
    handled on one render start two imports. *)
Lemma two_imports_in_flight :
  ~ (forall accs reg evs l,
        runLive evs (initialLive accs reg) = Some l -> pending l <= 1).
Proof.
  intros H.
  specialize (H [mkSlot 1 true None] [mkSlot 1 true None]
                [Ui ClickImportAccount; Commit;
                 Ui (ChangeQrData (str "blob")); Commit;
                 Ui ClickImport; Ui ClickImport]
                _ eq_refl).
  simpl in H. lia.
Qed.

(** C8, amended: the synchronous part of [handleQRImport] has set
    [importing] by the time it issues the call; the resumption resets it
    whether the promise resolved or rejected; on a render committed while
    the flag is set the Import button is disabled and a click starts
    nothing; hence on every run in which each click on Import is handled on
    a render that shows the current value of the flag, at most one
    [importFromQR] is pending. *)
Theorem one_import_in_flight_on_fresh_renders :
  (forall r h h1 call,
      handleQRImport_begin_in r h = (h1, Some call) -> importing h1 = true)
  /\ (forall res w, importing (snd (handleQRImport_resume res w)) = false)
  /\ (forall l, importing (rendered l) = true ->
                stepLive (Ui ClickImport) l = None)
  /\ (forall accs reg evs l,
         runLive evs (initialLive accs reg) = Some l ->
         freshClicks evs (initialLive accs reg) = true ->
         pending l <= 1
         /\ (pending l = 1 -> importing (hooks l) = true)).
Proof.
  split; [exact handleQRImport_begin_in_issues|].
  split; [exact handleQRImport_resume_resets|].
  split; [exact rendered_importing_disables|].
  intros accs reg evs l Hrun Hfresh.
  assert (Hinv : flagTracksPending l)
    by (apply (runLive_preserves_flag evs (initialLive accs reg) l);
        [reflexivity|exact Hfresh|exact Hrun]).
  unfold flagTracksPending in Hinv.
  destruct (importing (hooks l)).
  - split; [lia|reflexivity].
  - split; [lia|]. intros H1. rewrite H1 in Hinv. discriminate.
Qed.

Lemma one_import_in_flight_on_fresh_renders_witness :
  pending
    (mkLive
       (emit (ImportFromQR (str "blob") 1)
          (with_importing true
             (with_qrData (str "blob")
                (with_showImportDialog true
                   (with_selectedSlot 1
                      (initialWorld [mkSlot 1 true None] [mkSlot 1 true None]))))))
       (with_qrData (str "blob")
          (with_showImportDialog true
             (with_selectedSlot 1
                (initialWorld [mkSlot 1 true None] [mkSlot 1 true None]))))
       1) <= 1.
Proof.
  destruct one_import_in_flight_on_fresh_renders as (_ & _ & _ & H).
  apply (H [mkSlot 1 true None] [mkSlot 1 true None]
           [Ui ClickImportAccount; Commit;
            Ui (ChangeQrData (str "blob")); Commit; Ui ClickImport]).
  - reflexivity.
  - reflexivity.
Defined.

(** Once the render with the flag set is committed, a second click is not
    an event. *)
Example second_click_after_commit_is_dead :
  runLive [Ui ClickImportAccount; Commit; Ui (ChangeQrData (str "blob"));
           Commit; Ui ClickImport; Commit; Ui ClickImport]
          (initialLive [mkSlot 1 true None] [mkSlot 1 true None])
  = None.
Proof. reflexivity. Qed.

(** Before that commit it is, and it repeats the call of the first. *)
Example second_click_before_commit :
  option_map (fun l => (pending l, log (hooks l)))
    (runLive [Ui ClickImportAccount; Commit; Ui (ChangeQrData (str "blob"));
              Commit; Ui ClickImport; Ui ClickImport]
             (initialLive [mkSlot 1 true None] [mkSlot 1 true None]))
  = Some (2, [ImportFromQR (str "blob") 1; ImportFromQR (str "blob") 1]).
Proof. reflexivity. Qed.

(** After the promise rejects the user may submit again. *)
Example retry_after_rejection :
  option_map inFlight
    (run [ClickImportAccount; ChangeQrData (str "blob"); ClickImport;
          Settled (Throw DecodeError) [mkSlot 1 true None]; ClickImport]
         (initialPage [mkSlot 1 true None] [mkSlot 1 true None]))
  = Some 1.
Proof. reflexivity. Qed.

(** * Further properties of the component *)

(** ** The blank-payload guard *)

Lemma trimStart_nil_iff (s : jsstring) :
  trimStart s = [] <-> forallb isWhiteSpace s = true.
Proof.
  induction s as [|c s IH]; cbn [trimStart forallb]; [tauto|].
  destruct (isWhiteSpace c); cbn [andb]; [exact IH|].
  split; discriminate.
Qed.

Lemma trimStart_blank (s : jsstring) :
  forallb isWhiteSpace (trimStart s) = true -> trimStart s = [].
Proof.
  induction s as [|c s IH]; cbn [trimStart]; [reflexivity|].
  destruct (isWhiteSpace c) eqn:Hc; [exact IH|].
  cbn [forallb]. rewrite Hc. discriminate.
Qed.

Lemma forallb_rev {A} (f : A -> bool) (l : list A) :
  forallb f (rev l) = forallb f l.
Proof.
  induction l as [|a l IH]; [reflexivity|].
  cbn [rev forallb]. rewrite forallb_app, IH. cbn [forallb].
  now rewrite andb_true_r, andb_comm.
Qed.

Lemma trim_nil_iff (s : jsstring) :
  trim s = [] <-> forallb isWhiteSpace s = true.
Proof.
  unfold trim, trimEnd. split.
  - intros H. apply trimStart_nil_iff, trimStart_blank.
    rewrite <- forallb_rev. apply trimStart_nil_iff.
    apply (f_equal (@rev codeunit)) in H. now rewrite rev_involutive in H.
  - intros H. apply trimStart_nil_iff in H. now rewrite H.
Qed.

Lemma truthy_trim (s : jsstring) :
  truthy (trim s) = negb (forallb isWhiteSpace s).
Proof.
  destruct (forallb isWhiteSpace s) eqn:H.
  - apply trim_nil_iff in H. now rewrite H.
  - destruct (trim s) eqn:E; [|reflexivity].
    apply trim_nil_iff in E. congruence.
Qed.

(** X1: the Import button is disabled exactly while an import is running
    or the payload consists of white space only, and the handler stops
    before the call under the same condition on the payload. *)
Theorem blank_guard_is_all_whitespace (w : World) :
  importDisabled w = (importing w || forallb isWhiteSpace (qrData w))
  /\ (snd (handleQRImport_begin w) = None
      <-> forallb isWhiteSpace (qrData w) = true).
Proof.
  split.
  - unfold importDisabled. now rewrite truthy_trim, negb_involutive.
  - unfold handleQRImport_begin. rewrite truthy_trim, negb_involutive.
    destruct (forallb isWhiteSpace (qrData w)); simpl; split;
      first [reflexivity | discriminate].
Qed.

(** ** More on [getInitials] *)

Lemma split_no_sep (sep : codeunit) (s : jsstring) :
  forallb (fun c => negb (N.eqb c sep)) s = true -> split sep s = [s].
Proof.
  induction s as [|c s IH]; [reflexivity|].
  cbn [forallb]. intros H. apply andb_true_iff in H as [Hc Hs].
  apply negb_true_iff in Hc. simpl. now rewrite Hc, (IH Hs).
Qed.

Lemma split_snoc_sep (sep : codeunit) (s : jsstring) :
  split sep (s ++ [sep]) = split sep s ++ [[]].
Proof. apply (split_app_sep sep s []). Qed.

Lemma join_index0_cons_other (c : codeunit) (s : jsstring) :
  N.eqb c space = false ->
  exists t,
    join_empty (map (fun word => index0 word) (split space (c :: s))) = c :: t.
Proof.
  intros Hc. destruct (split_cons_other space c s Hc) as (w & ws & _ & E).
  rewrite E. now eexists.
Qed.

Lemma join_index0_nil_iff (s : jsstring) :
  join_empty (map (fun word => index0 word) (split space s)) = []
  <-> forallb (fun c => N.eqb c space) s = true.
Proof.
  induction s as [|c s IH]; [simpl; tauto|].
  cbn [forallb]. destruct (N.eqb c space) eqn:Hc.
  - rewrite (split_cons_sep space c s Hc). exact IH.
  - destruct (join_index0_cons_other c s Hc) as (t & ->).
    split; discriminate.
Qed.

Section InitialsMore.

Variable toUpperCase : jsstring -> jsstring.

(** X2: spaces in front of a name and behind it do not change the
    initials. *)
Theorem getInitials_outer_spaces (name : jsstring) :
  getInitials toUpperCase (space :: name) = getInitials toUpperCase name
  /\ getInitials toUpperCase (name ++ [space]) = getInitials toUpperCase name.
Proof.
  unfold getInitials. split.
  - now rewrite (split_cons_sep space space name (N.eqb_refl _)).
  - rewrite split_snoc_sep, map_app, join_empty_app. simpl.
    now rewrite app_nil_r.
Qed.

(** X3: a name without a space has one initial: the result is the upper
    case of its first code unit, cut to 2 code units. *)
Theorem getInitials_one_word (c : codeunit) (rest : jsstring) :
  forallb (fun u => negb (N.eqb u space)) (c :: rest) = true ->
  getInitials toUpperCase (c :: rest) = slice 0 2 (toUpperCase [c]).
Proof.
  intros H. unfold getInitials. now rewrite (split_no_sep space _ H).
Qed.

(** X4: with a case mapping that maps the empty string, and only it, to
    the empty string, the avatar token of a slot with an account is empty
    exactly when the account has no (or an empty) avatar and its name
    holds nothing but spaces. *)
Theorem avatarFallback_empty_iff (accountSlot : AccountSlot) (a : Account) :
  toUpperCase [] = [] ->
  (forall s, s <> [] -> toUpperCase s <> []) ->
  account accountSlot = Some a ->
  avatarFallback toUpperCase accountSlot = []
  <-> ((avatar a = None \/ avatar a = Some [])
       /\ forallb (fun c => N.eqb c space) (name a) = true).
Proof.
  intros Hnil Hne Ha.
  assert (Hi : forall s,
             getInitials toUpperCase s = []
             <-> forallb (fun c => N.eqb c space) s = true).
  { intros s. unfold getInitials, slice. rewrite <- join_index0_nil_iff.
    set (j := join_empty _). simpl. split.
    - intros H. destruct j as [|u j]; [reflexivity|].
      specialize (Hne (u :: j)).
      destruct (toUpperCase (u :: j)) as [|x [|y l]];
        [exfalso; now apply Hne|discriminate|discriminate].
    - intros ->. now rewrite Hnil. }
  unfold avatarFallback. rewrite Ha. simpl.
  assert (Hn : (if truthy (name a) then name a else []) = name a)
    by (destruct (name a); reflexivity).
  rewrite Hn.
  destruct (avatar a) as [[|c rest]|]; simpl; rewrite ?Hi.
  - split; [intros H; split; [now right|exact H]|now intros [_ H]].
  - split; [discriminate|]. intros [[H|H] _]; discriminate.
  - split; [intros H; split; [now left|exact H]|now intros [_ H]].
Qed.

End InitialsMore.

Lemma getInitials_one_word_witness :
  getInitials toUpperCase_basic (str "alice") = str "A".
Proof.
  apply (getInitials_one_word toUpperCase_basic 97%N (str "lice")).
  reflexivity.
Defined.

Lemma toUpperCase_basic_nonempty (s : jsstring) :
  s <> [] -> toUpperCase_basic s <> [].
Proof.
  destruct s as [|c s]; [congruence|]. intros _.
  unfold toUpperCase_basic. cbn [flat_map]. unfold upperUnit.
  destruct (N.leb 97 c && N.leb c 122)%bool; [discriminate|].
  destruct (N.eqb c 223); discriminate.
Qed.

Lemma avatarFallback_empty_iff_witness :
  avatarFallback toUpperCase_basic
    (mkSlot 1 false (Some (mkAccount (str "k") (str "  ") (Some []) (str "t"))))
  = [].
Proof.
  apply (avatarFallback_empty_iff toUpperCase_basic
           (mkSlot 1 false
              (Some (mkAccount (str "k") (str "  ") (Some []) (str "t"))))
           (mkAccount (str "k") (str "  ") (Some []) (str "t"))
           eq_refl toUpperCase_basic_nonempty eq_refl).
  split; [now right|reflexivity].
Defined.

(** ** The slot cards *)

(** X5: the id shown on a card is never longer than 23 code units, and an
    id of at most 20 code units is shown whole, still followed by the three
    dots. *)
Theorem idLabel_bounded (accountSlot : AccountSlot) :
  length (idLabel accountSlot) <= 23
  /\ (forall a, account accountSlot = Some a -> length (id a) <= 20 ->
                idLabel accountSlot = id a ++ str "...").
Proof.
  unfold idLabel. split.
  - rewrite length_app. change (length (str "...")) with 3.
    destruct (account accountSlot) as [a|]; [|simpl; lia].
    pose proof (slice_0_length 20 (id a)). lia.
  - intros a -> Hlen. unfold slice. rewrite Nat.sub_0_r. simpl skipn.
    now rewrite firstn_all2.
Qed.

Lemma idLabel_bounded_witness :
  idLabel (mkSlot 1 false (Some (mkAccount (str "abc") [] None [])))
  = str "abc...".
Proof.
  destruct (idLabel_bounded
              (mkSlot 1 false (Some (mkAccount (str "abc") [] None []))))
    as [_ H].
  apply (H (mkAccount (str "abc") [] None []) eq_refl).
  simpl. lia.
Defined.

Lemma map_injective_on_nodup {A B} (f : A -> B) (l : list A) (a b : A) :
  NoDup (map f l) -> In a l -> In b l -> f a = f b -> a = b.
Proof.
  induction l as [|x l IH]; intros Hnd Ha Hb Hf; [destruct Ha|].
  cbn [map] in Hnd. inversion Hnd as [|? ? Hx Hl]; subst.
  destruct Ha as [<-|Ha], Hb as [<-|Hb]; [reflexivity| | |now apply IH].
  - exfalso. apply Hx. rewrite Hf. now apply in_map.
  - exfalso. apply Hx. rewrite <- Hf. now apply in_map.
Qed.

Lemma slotActions_create (accs : list AccountSlot) (n : Z) :
  In (OnCreateAccount n) (slotActions accs)
  <-> exists a, In a accs /\ isEmpty a = true /\ slot a = n.
Proof.
  unfold slotActions. rewrite in_map_iff. unfold cardAction.
  split; intros (a & H1 & H2).
  - exists a. destruct (isEmpty a); [|discriminate].
    injection H1 as <-. now repeat split.
  - exists a. destruct H2 as [-> <-]. now split.
Qed.

Lemma slotActions_select (accs : list AccountSlot) (n : Z) :
  In (OnSelectAccount n) (slotActions accs)
  <-> exists a, In a accs /\ isEmpty a = false /\ slot a = n.
Proof.
  unfold slotActions. rewrite in_map_iff. unfold cardAction.
  split; intros (a & H1 & H2).
  - exists a. destruct (isEmpty a); [discriminate|].
    injection H1 as <-. now repeat split.
  - exists a. destruct H2 as [-> <-]. now split.
Qed.

(** X6: every slot gets one card; creating is offered for exactly the
    numbers of the empty slots and continuing for exactly the numbers of
    the others, so with unique slot numbers no number is offered both. *)
Theorem slotActions_partition (accs : list AccountSlot) :
  length (slotActions accs) = length accs
  /\ (forall n, In (OnCreateAccount n) (slotActions accs)
                <-> exists a, In a accs /\ isEmpty a = true /\ slot a = n)
  /\ (forall n, In (OnSelectAccount n) (slotActions accs)
                <-> exists a, In a accs /\ isEmpty a = false /\ slot a = n)
  /\ (NoDup (map slot accs) ->
      forall n, ~ (In (OnCreateAccount n) (slotActions accs)
                   /\ In (OnSelectAccount n) (slotActions accs))).
Proof.
  split; [apply length_map|].
  split; [apply slotActions_create|].
  split; [apply slotActions_select|].
  intros Hnd n [Hc Hs].
  apply slotActions_create in Hc as (a & Ha & Hea & Hna).
  apply slotActions_select in Hs as (b & Hb & Heb & Hnb).
  assert (a = b)
    by (apply (map_injective_on_nodup slot accs a b Hnd Ha Hb); congruence).
  congruence.
Qed.

Lemma slotActions_partition_witness :
  ~ (In (OnCreateAccount 2)
        (slotActions [mkSlot 1 false None; mkSlot 2 true None])
     /\ In (OnSelectAccount 2)
          (slotActions [mkSlot 1 false None; mkSlot 2 true None])).
Proof.
  destruct (slotActions_partition [mkSlot 1 false None; mkSlot 2 true None])
    as (_ & _ & _ & H).
  apply H. simpl. repeat constructor; simpl; intuition discriminate.
Defined.

(** X7: the hint that all slots are occupied is shown exactly when the
    import button is disabled, and that is exactly when no card offers to
    create an account. *)
Theorem occupied_hint_iff_no_create (w : World) :
  occupiedHintShown w = importAccountDisabled w
  /\ (importAccountDisabled w = true
      <-> forall n, ~ In (OnCreateAccount n) (slotActions (accounts w))).
Proof.
  split; [reflexivity|].
  unfold importAccountDisabled. rewrite negb_true_iff. split.
  - intros H n Hin. apply slotActions_create in Hin as (a & Ha & Hea & _).
    assert (existsb (fun acc => isEmpty acc) (accounts w) = true)
      by (apply existsb_exists; now exists a).
    congruence.
  - intros H. destruct (existsb _ _) eqn:E; [|reflexivity].
    apply existsb_exists in E as (a & Ha & Hea).
    exfalso. apply (H (slot a)). apply slotActions_create. now exists a.
Qed.

(** ** The import button and its handler *)

Lemma handleImportAccount_enabled (w : World) :
  importAccountDisabled w = false ->
  exists s,
    find (fun acc => isEmpty acc) (accounts w) = Some s
    /\ In s (accounts w) /\ isEmpty s = true
    /\ handleImportAccount w
       = (Normal tt,
          if Z.eqb (slot s) 0 then emit (ToastError msgAllSlotsOccupied) w
          else with_showImportDialog true (with_selectedSlot (slot s) w)).
Proof.
  unfold importAccountDisabled. rewrite negb_false_iff. intros H.
  destruct (find (fun acc => isEmpty acc) (accounts w)) as [s|] eqn:Hf.
  - exists s. destruct (find_some _ _ Hf) as [Hin He].
    repeat split; try assumption.
    unfold handleImportAccount, bind, read, availableSlot. rewrite Hf. simpl.
    destruct (slot s); reflexivity.
  - apply existsb_exists in H as (a & Ha & Hea).
    pose proof (find_none _ _ Hf a Ha) as Hn. simpl in Hn. congruence.
Qed.

(** X8: whenever the import button is enabled, its handler finds the
    first empty slot of the list; it selects that slot and opens the
    dialog, touching nothing else, unless the slot is numbered 0, in which
    case it shows the all-slots-occupied notification instead. *)
Theorem importAccount_button_and_handler (w : World) :
  importAccountDisabled w = false ->
  exists s,
    find (fun acc => isEmpty acc) (accounts w) = Some s
    /\ In s (accounts w) /\ isEmpty s = true
    /\ handleImportAccount w
       = (Normal tt,
          if Z.eqb (slot s) 0 then emit (ToastError msgAllSlotsOccupied) w
          else with_showImportDialog true (with_selectedSlot (slot s) w)).
Proof.
  intros Hd.
  destruct (handleImportAccount_enabled w Hd) as (s & Hf & Hin & He & Hh).
  exists s. split; [exact Hf|]. split; [exact Hin|]. split; [exact He|].
  exact Hh.
Qed.

Lemma importAccount_button_and_handler_witness :
  exists s,
    find (fun acc => isEmpty acc)
      (accounts (initialWorld [mkSlot 1 false None; mkSlot 2 true None] []))
    = Some s
    /\ In s (accounts (initialWorld [mkSlot 1 false None; mkSlot 2 true None] []))
    /\ isEmpty s = true
    /\ handleImportAccount
         (initialWorld [mkSlot 1 false None; mkSlot 2 true None] [])
       = (Normal tt,
          if Z.eqb (slot s) 0
          then emit (ToastError msgAllSlotsOccupied)
                 (initialWorld [mkSlot 1 false None; mkSlot 2 true None] [])
          else with_showImportDialog true
                 (with_selectedSlot (slot s)
                    (initialWorld [mkSlot 1 false None; mkSlot 2 true None] []))).
Proof.
  apply (importAccount_button_and_handler
           (initialWorld [mkSlot 1 false None; mkSlot 2 true None] [])).
  reflexivity.
Defined.

(** ** The component as a whole *)

Lemma handleQRImport_resume_world (r : Completion unit) (w : World) :
  snd (handleQRImport_resume r w) = settledWorld r w.
Proof. destruct r as [[]|e]; reflexivity. Qed.

(** Every enabled event, with the page it leads to. *)
Lemma step_cases (ev : Event) (p p' : Page) :
  step ev p = Some p' ->
  match ev with
  | ClickImportAccount =>
      importAccountDisabled (world p) = false
      /\ p' = mkPage (snd (handleImportAccount (world p))) (inFlight p)
  | OpenChange open =>
      p' = mkPage (with_showImportDialog open (world p)) (inFlight p)
  | ClickPasteData =>
      showImportDialog (world p) = true
      /\ p' = mkPage (with_importMethod file (world p)) (inFlight p)
  | ChangeQrData value =>
      showImportDialog (world p) = true
      /\ p' = mkPage (with_qrData value (world p)) (inFlight p)
  | ClickCancel =>
      showImportDialog (world p) = true
      /\ p' = mkPage (with_showImportDialog false (world p)) (inFlight p)
  | ClickImport =>
      showImportDialog (world p) = true
      /\ importing (world p) = false
      /\ truthy (trim (qrData (world p))) = true
      /\ p' = mkPage
                (emit (ImportFromQR (qrData (world p)) (selectedSlot (world p)))
                   (with_importing true (world p)))
                (S (inFlight p))
  | Settled r reg =>
      exists n,
        inFlight p = S n
        /\ p' = mkPage (settledWorld r (with_registry reg (world p))) n
  end.
Proof.
  destruct ev; simpl; intros H.
  - destruct (importAccountDisabled (world p)); [discriminate|].
    now injection H as <-.
  - now injection H as <-.
  - destruct (showImportDialog (world p)); [|discriminate].
    now injection H as <-.
  - destruct (showImportDialog (world p)); [|discriminate].
    now injection H as <-.
  - destruct (showImportDialog (world p)); [|discriminate].
    now injection H as <-.
  - destruct (showImportDialog (world p)); [|discriminate].
    unfold importDisabled, handleQRImport_begin in H.
    destruct (importing (world p)); [discriminate|].
    destruct (truthy (trim (qrData (world p)))); [|discriminate].
    simpl in H. now injection H as <-.
  - destruct (inFlight p) as [|n]; [discriminate|].
    injection H as <-. exists n. now rewrite handleQRImport_resume_world.
Qed.

Lemma run_invariant (P : Page -> Prop) :
  (forall ev p p', P p -> step ev p = Some p' -> P p') ->
  forall evs p p', P p -> run evs p = Some p' -> P p'.
Proof.
  intros Hstep evs. induction evs as [|ev evs IH]; intros p p' HP Hrun.
  - simpl in Hrun. now injection Hrun as <-.
  - simpl in Hrun. destruct (step ev p) as [p1|] eqn:E; [|discriminate].
    exact (IH p1 p' (Hstep ev p p1 HP E) Hrun).
Qed.

(** X9: a click on an enabled Import button always issues exactly one
    call of [importFromQR], with the payload as typed (not trimmed) and
    the selected slot, and sets the flag; the empty-payload branch of the
    handler is never taken from the button. *)
Theorem click_issues_one_call (p p' : Page) :
  step ClickImport p = Some p' ->
  inFlight p' = S (inFlight p)
  /\ importing (world p') = true
  /\ log (world p')
     = log (world p)
       ++ [ImportFromQR (qrData (world p)) (selectedSlot (world p))]
  /\ qrData (world p') = qrData (world p)
  /\ showImportDialog (world p') = true.
Proof.
  intros H. apply (step_cases ClickImport) in H as (Hd & _ & _ & ->).
  simpl. now rewrite Hd.
Qed.

Lemma click_issues_one_call_witness :
  log (world
         (mkPage
            (emit (ImportFromQR (str " blob ") 1)
               (with_importing true
                  (with_qrData (str " blob ")
                     (with_showImportDialog true (initialWorld [] [])))))
            1))
  = [ImportFromQR (str " blob ") 1].
Proof.
  apply (click_issues_one_call
           (mkPage (with_qrData (str " blob ")
                      (with_showImportDialog true (initialWorld [] []))) 0)).
  reflexivity.
Defined.

(** X10: when the promise of an import settles, the Import button is
    enabled again exactly after a rejection with the dialog still open and
    the payload not blank; after a success it is not, and the last effect
    is the page reload. *)
Theorem import_button_after_settling (p p' : Page)
    (r : Completion unit) (reg : list AccountSlot) :
  step (Settled r reg) p = Some p' ->
  enabled ClickImport p'
  = match r with
    | Normal _ => false
    | Throw _ => showImportDialog (world p) && truthy (trim (qrData (world p)))
    end
  /\ match r with
     | Normal _ => exists l, log (world p') = l ++ [Reload]
     | Throw _ =>
         log (world p') = log (world p) ++ [ToastError msgImportFailed]
     end.
Proof.
  intros H. apply (step_cases (Settled r reg)) in H as (n & _ & ->).
  unfold enabled. destruct r as [[]|e]; simpl.
  - split; [reflexivity|]. now eexists.
  - split; [|reflexivity]. unfold importDisabled. simpl.
    destruct (showImportDialog (world p)); [|reflexivity].
    destruct (truthy (trim (qrData (world p)))); simpl; [|reflexivity].
    now destruct (handleQRImport_begin _).
Qed.

Lemma import_button_after_settling_witness :
  enabled ClickImport
    (mkPage
       (settledWorld (Throw DecodeError)
          (with_registry []
             (with_importing true
                (with_qrData (str "blob")
                   (with_showImportDialog true (initialWorld [] []))))))
       0)
  = true.
Proof.
  apply (import_button_after_settling
           (mkPage (with_importing true
                      (with_qrData (str "blob")
                         (with_showImportDialog true (initialWorld [] [])))) 1)
           _ (Throw DecodeError) []).
  reflexivity.
Defined.

Lemma errorToasts_emit (e : Effect) (w : World) :
  errorToasts (log (emit e w))
  = errorToasts (log w) ++ match e with ToastError m => [m] | _ => [] end.
Proof.
  unfold errorToasts. simpl. rewrite flat_map_app. simpl.
  now rewrite app_nil_r.
Qed.

Lemma countEffects_emit (f : Effect -> bool) (e : Effect) (w : World) :
  countEffects f (log (emit e w))
  = countEffects f (log w) + (if f e then 1 else 0).
Proof.
  unfold countEffects. simpl. rewrite filter_app, length_app. simpl.
  now destruct (f e).
Qed.

Lemma log_settledWorld (r : Completion unit) (reg : list AccountSlot)
    (w : World) :
  log (settledWorld r (with_registry reg w))
  = log w ++ match r with
             | Normal _ => [ToastSuccess msgImported; Reload]
             | Throw _ => [ToastError msgImportFailed]
             end.
Proof. destruct r as [[]|e]; simpl; [now rewrite <- app_assoc|reflexivity]. Qed.

(** The page after an enabled click on the import button. *)
Lemma step_importAccount_cases (p p' : Page) :
  step ClickImportAccount p = Some p' ->
  exists s,
    In s (accounts (world p)) /\ isEmpty s = true
    /\ availableSlot (accounts (world p)) = Some (slot s)
    /\ ((slot s <> 0%Z
         /\ p' = mkPage (with_showImportDialog true
                           (with_selectedSlot (slot s) (world p)))
                        (inFlight p))
        \/ (slot s = 0%Z
            /\ p' = mkPage (emit (ToastError msgAllSlotsOccupied) (world p))
                           (inFlight p))).
Proof.
  intros H. apply (step_cases ClickImportAccount) in H as [Hd ->].
  destruct (handleImportAccount_enabled _ Hd) as (s & Hf & Hin & He & Hh).
  exists s. repeat split; try assumption.
  - unfold availableSlot. now rewrite Hf.
  - rewrite Hh. simpl snd. destruct (Z.eqb (slot s) 0) eqn:Hz.
    + right. apply Z.eqb_eq in Hz. now split.
    + left. apply Z.eqb_neq in Hz. now split.
Qed.

(** X11: on a slot list with positive slot numbers, the only failure
    notification a user can ever be shown is the generic import failure:
    the all-slots-occupied and the empty-payload notifications sit behind
    buttons that are disabled whenever their guard would fire. *)
Theorem only_generic_failure_toast (accs reg : list AccountSlot)
    (evs : list Event) (p : Page) :
  positiveSlots accs = true ->
  run evs (initialPage accs reg) = Some p ->
  Forall (fun m => m = msgImportFailed) (errorToasts (log (world p))).
Proof.
  intros Hpos Hrun.
  apply (run_invariant
           (fun q => accounts (world q) = accs
                     /\ Forall (fun m => m = msgImportFailed)
                          (errorToasts (log (world q)))))
    in Hrun; [exact (proj2 Hrun)| |split; [reflexivity|constructor]].
  clear p Hrun. intros ev p p' [Hacc Hlog] Hstep. destruct ev.
  - apply step_importAccount_cases in Hstep
      as (s & Hin & _ & _ & [[_ ->]|[Hz _]]); [now split|].
    exfalso. unfold positiveSlots in Hpos. rewrite forallb_forall in Hpos.
    rewrite Hacc in Hin. specialize (Hpos s Hin).
    apply Z.ltb_lt in Hpos. lia.
  - apply (step_cases (OpenChange open)) in Hstep as ->. now split.
  - apply (step_cases ClickPasteData) in Hstep as [_ ->]. now split.
  - apply (step_cases (ChangeQrData value)) in Hstep as [_ ->]. now split.
  - apply (step_cases ClickCancel) in Hstep as [_ ->]. now split.
  - apply (step_cases ClickImport) in Hstep as (_ & _ & _ & ->).
    split; [exact Hacc|]. cbn [world]. rewrite errorToasts_emit.
    now rewrite app_nil_r.
  - apply (step_cases (Settled r reg0)) in Hstep as (n & _ & ->).
    split; [now destruct r|]. cbn [world].
    rewrite log_settledWorld. unfold errorToasts. rewrite flat_map_app.
    apply Forall_app. split; [exact Hlog|].
    destruct r as [[]|e]; repeat constructor.
Qed.

Lemma only_generic_failure_toast_witness :
  Forall (fun m => m = msgImportFailed)
    (errorToasts
       (log (world
               (mkPage
                  (settledWorld (Throw DecodeError)
                     (with_registry [mkSlot 1 true None]
                        (emit (ImportFromQR (str "blob") 1)
                           (with_importing true
                              (with_qrData (str "blob")
                                 (with_showImportDialog true
                                    (with_selectedSlot 1
                                       (initialWorld [mkSlot 1 true None]
                                          [mkSlot 1 true None])))))))) 0)))).
Proof.
  apply (only_generic_failure_toast [mkSlot 1 true None] [mkSlot 1 true None]
           [ClickImportAccount; ChangeQrData (str "blob"); ClickImport;
            Settled (Throw DecodeError) [mkSlot 1 true None]]).
  - reflexivity.
  - reflexivity.
Defined.

(** X12: every call of [importFromQR] the component ever issues carries a
    payload that is not blank and targets either the first empty slot of
    the slot list or the default slot 1. *)
Theorem calls_nonblank_and_targeted (accs reg : list AccountSlot)
    (evs : list Event) (p : Page) :
  run evs (initialPage accs reg) = Some p ->
  forall payload target,
    In (ImportFromQR payload target) (log (world p)) ->
    truthy (trim payload) = true
    /\ (target = 1%Z \/ availableSlot accs = Some target).
Proof.
  intros Hrun.
  apply (run_invariant
           (fun q =>
              accounts (world q) = accs
              /\ (selectedSlot (world q) = 1%Z
                  \/ availableSlot accs = Some (selectedSlot (world q)))
              /\ forall payload target,
                   In (ImportFromQR payload target) (log (world q)) ->
                   truthy (trim payload) = true
                   /\ (target = 1%Z \/ availableSlot accs = Some target)))
    in Hrun; [exact (proj2 (proj2 Hrun))| |].
  - clear p Hrun. intros ev p p' (Hacc & Hsel & Hlog) Hstep. destruct ev.
    + apply step_importAccount_cases in Hstep
        as (s & _ & _ & Hav & [[_ ->]|[_ ->]]); cbn [world].
      * split; [exact Hacc|split; [|exact Hlog]].
        right. now rewrite <- Hacc.
      * split; [exact Hacc|split; [exact Hsel|]].
        intros payload target Hin. apply Hlog.
        simpl in Hin. apply in_app_or in Hin as [Hin|[Hin|[]]];
          [exact Hin|discriminate].
    + apply (step_cases (OpenChange open)) in Hstep as ->. now split.
    + apply (step_cases ClickPasteData) in Hstep as [_ ->].
      now split.
    + apply (step_cases (ChangeQrData value)) in Hstep as [_ ->].
      now split.
    + apply (step_cases ClickCancel) in Hstep as [_ ->]. now split.
    + apply (step_cases ClickImport) in Hstep as (_ & _ & Hp & ->).
      split; [exact Hacc|split; [exact Hsel|]].
      intros payload target Hin. simpl in Hin.
      apply in_app_or in Hin as [Hin|[Hin|[]]]; [now apply Hlog|].
      injection Hin as <- <-. now split.
    + apply (step_cases (Settled r reg0)) in Hstep as (n & _ & ->).
      cbn [world]. split; [now destruct r|split; [now destruct r|]].
      intros payload target Hin. rewrite log_settledWorld in Hin.
      apply in_app_or in Hin as [Hin|Hin]; [now apply Hlog|].
      destruct r as [[]|e]; simpl in Hin; intuition discriminate.
  - split; [reflexivity|split; [now left|]]. intros payload target [].
Qed.

Lemma calls_nonblank_and_targeted_witness :
  truthy (trim (str "blob")) = true
  /\ (2%Z = 1%Z
      \/ availableSlot [mkSlot 1 false None; mkSlot 2 true None] = Some 2%Z).
Proof.
  apply (calls_nonblank_and_targeted
           [mkSlot 1 false None; mkSlot 2 true None] []
           [ClickImportAccount; ChangeQrData (str "blob"); ClickImport]
           (mkPage
              (emit (ImportFromQR (str "blob") 2)
                 (with_importing true
                    (with_qrData (str "blob")
                       (with_showImportDialog true
                          (with_selectedSlot 2
                             (initialWorld
                                [mkSlot 1 false None; mkSlot 2 true None] []))))))
              1)).
  - reflexivity.
  - simpl. now left.
Defined.

(** X13: every call of [importFromQR] is answered by exactly one
    notification: at any time the calls issued are the success
    notifications plus the generic failure notifications plus the call
    still pending, and the page is reloaded once per success. *)
Theorem calls_are_accounted_for (accs reg : list AccountSlot)
    (evs : list Event) (p : Page) :
  run evs (initialPage accs reg) = Some p ->
  countEffects isCall (log (world p))
  = countEffects isSuccessToast (log (world p))
    + countEffects isFailureToast (log (world p))
    + inFlight p
  /\ countEffects isReload (log (world p))
     = countEffects isSuccessToast (log (world p)).
Proof.
  intros Hrun.
  apply (run_invariant
           (fun q =>
              countEffects isCall (log (world q))
              = countEffects isSuccessToast (log (world q))
                + countEffects isFailureToast (log (world q))
                + inFlight q
              /\ countEffects isReload (log (world q))
                 = countEffects isSuccessToast (log (world q))))
    in Hrun; [exact Hrun| |split; reflexivity].
  clear p Hrun. intros ev p p' [Hc Hr] Hstep. destruct ev.
  - apply step_importAccount_cases in Hstep
      as (s & _ & _ & _ & [[_ ->]|[_ ->]]); cbn [world inFlight].
    + now split.
    + rewrite !countEffects_emit.
      change (isFailureToast (ToastError msgAllSlotsOccupied)) with false.
      cbn [isCall isSuccessToast isReload]. lia.
  - apply (step_cases (OpenChange open)) in Hstep as ->. now split.
  - apply (step_cases ClickPasteData) in Hstep as [_ ->]. now split.
  - apply (step_cases (ChangeQrData value)) in Hstep as [_ ->]. now split.
  - apply (step_cases ClickCancel) in Hstep as [_ ->]. now split.
  - apply (step_cases ClickImport) in Hstep as (_ & _ & _ & ->).
    cbn [world inFlight]. rewrite !countEffects_emit.
    cbn [isCall isSuccessToast isFailureToast isReload].
    change (log (with_importing true (world p))) with (log (world p)). lia.
  - apply (step_cases (Settled r reg0)) in Hstep as (n & Hn & ->).
    cbn [world inFlight]. rewrite Hn in Hc. unfold countEffects in *.
    rewrite log_settledWorld, !filter_app, !length_app.
    destruct r as [[]|e].
    + cbn [filter isCall isSuccessToast isFailureToast isReload length]. lia.
    + change (filter isFailureToast [ToastError msgImportFailed])
        with [ToastError msgImportFailed].
      cbn [filter isCall isSuccessToast isReload length]. lia.
Qed.

Lemma calls_are_accounted_for_witness :
  countEffects isCall
    [ImportFromQR (str "blob") 1; ToastError msgImportFailed;
     ImportFromQR (str "blob") 1]
  = countEffects isSuccessToast
      [ImportFromQR (str "blob") 1; ToastError msgImportFailed;
       ImportFromQR (str "blob") 1]
    + countEffects isFailureToast
        [ImportFromQR (str "blob") 1; ToastError msgImportFailed;
         ImportFromQR (str "blob") 1]
    + 1.
Proof.
  apply (calls_are_accounted_for [mkSlot 1 true None] []
           [ClickImportAccount; ChangeQrData (str "blob"); ClickImport;
            Settled (Throw DecodeError) []; ClickImport]
           (mkPage
              (mkWorld [mkSlot 1 true None] [] true file (str "blob") 1 true
                 [ImportFromQR (str "blob") 1; ToastError msgImportFailed;
                  ImportFromQR (str "blob") 1])
              1)).
  reflexivity.
Defined.

Lemma step_frame (ev : Event) (p p' : Page) :
  step ev p = Some p' ->
  accounts (world p') = accounts (world p)
  /\ (isSettled ev = false -> registry (world p') = registry (world p))
  /\ (importMethod (world p) = file -> importMethod (world p') = file).
Proof.
  intros Hstep. destruct ev.
  - apply step_importAccount_cases in Hstep
      as (s & _ & _ & _ & [[_ ->]|[_ ->]]); now repeat split.
  - apply (step_cases (OpenChange open)) in Hstep as ->. now repeat split.
  - apply (step_cases ClickPasteData) in Hstep as [_ ->]. now repeat split.
  - apply (step_cases (ChangeQrData value)) in Hstep as [_ ->].
    now repeat split.
  - apply (step_cases ClickCancel) in Hstep as [_ ->]. now repeat split.
  - apply (step_cases ClickImport) in Hstep as (_ & _ & _ & ->).
    now repeat split.
  - apply (step_cases (Settled r reg)) in Hstep as (n & _ & ->).
    destruct r as [[]|e]; split; [reflexivity| |reflexivity|];
      (split; [discriminate|intros H; exact H]).
Qed.

(** X14: the component never changes the slot list it was given, and the
    registry can only change when a pending [importFromQR] settles: no
    click or keystroke writes to it. *)
Theorem accounts_and_registry_frame (evs : list Event) (p p' : Page) :
  run evs p = Some p' ->
  accounts (world p') = accounts (world p)
  /\ (forallb (fun ev => negb (isSettled ev)) evs = true ->
      registry (world p') = registry (world p)).
Proof.
  revert p. induction evs as [|ev evs IH]; intros p Hrun; simpl in Hrun.
  - injection Hrun as <-. now split.
  - destruct (step ev p) as [p1|] eqn:Hstep; [|discriminate].
    destruct (step_frame ev p p1 Hstep) as (Ha & Hr & _).
    destruct (IH p1 Hrun) as [Ha' Hr']. split; [congruence|].
    cbn [forallb]. intros H. apply andb_true_iff in H as [H1 H2].
    apply negb_true_iff in H1. rewrite (Hr' H2). now apply Hr.
Qed.

Lemma accounts_and_registry_frame_witness :
  accounts
    (world
       (mkPage
          (emit (ImportFromQR (str "blob") 1)
             (with_importing true
                (with_qrData (str "blob")
                   (with_showImportDialog true
                      (with_selectedSlot 1
                         (initialWorld [mkSlot 1 true None] []))))))
          1))
  = [mkSlot 1 true None].
Proof.
  apply (accounts_and_registry_frame
           [ClickImportAccount; ChangeQrData (str "blob"); ClickImport]
           (initialPage [mkSlot 1 true None] [])).
  reflexivity.
Defined.

(** X15: the import method is 'file' on every page: the only button that
    would select 'camera' is disabled, so the payload box is always the
    one shown in the dialog. *)
Theorem importMethod_always_file (accs reg : list AccountSlot)
    (evs : list Event) (p : Page) :
  run evs (initialPage accs reg) = Some p ->
  importMethod (world p) = file.
Proof.
  intros Hrun.
  apply (run_invariant (fun q => importMethod (world q) = file)) in Hrun;
    [exact Hrun| |reflexivity].
  intros ev q q' Hq Hstep.
  now apply (step_frame ev q q' Hstep).
Qed.

Lemma importMethod_always_file_witness :
  importMethod
    (world
       (mkPage
          (with_importMethod file
             (with_showImportDialog true
                (with_selectedSlot 1 (initialWorld [mkSlot 1 true None] []))))
          0))
  = file.
Proof.
  apply (importMethod_always_file [mkSlot 1 true None] []
           [ClickImportAccount; ClickPasteData]).
  reflexivity.
Defined.

(** ** [handleFileUpload] *)

(** X16: without a file, or when the read yields nothing, the upload
    handler changes nothing; otherwise only the first file counts, its
    text becomes the payload unchanged, and a submission that follows
    hands exactly that text to [importFromQR] unless it is blank. *)
Theorem handleFileUpload_then_submit (w : World) :
  handleFileUpload None w = (Normal tt, w)
  /\ handleFileUpload (Some []) w = (Normal tt, w)
  /\ (forall f rest, readAsText f = None ->
                     handleFileUpload (Some (f :: rest)) w = (Normal tt, w))
  /\ (forall f rest text,
         readAsText f = Some text ->
         handleFileUpload (Some (f :: rest)) w
         = (Normal tt, with_qrData text w)
         /\ snd (handleQRImport_begin
                   (snd (handleFileUpload (Some (f :: rest)) w)))
            = if forallb isWhiteSpace text then None
              else Some (text, selectedSlot w)).
Proof.
  split; [reflexivity|]. split; [reflexivity|]. split.
  - intros f rest H. unfold handleFileUpload. now rewrite H.
  - intros f rest text H. unfold handleFileUpload. rewrite H.
    split; [reflexivity|].
    unfold setQrData, modify, handleQRImport_begin. cbn [snd qrData with_qrData].
    rewrite truthy_trim, negb_involutive.
    now destruct (forallb isWhiteSpace text).
Qed.

Lemma handleFileUpload_then_submit_witness :
  snd (handleQRImport_begin
         (snd (handleFileUpload
                 (Some [mkFile (Some (str "blob" ++ [10%N]));
                        mkFile (Some (str "other"))])
                 (initialWorld [] []))))
  = Some (str "blob" ++ [10%N], 1%Z).
Proof.
  destruct (handleFileUpload_then_submit (initialWorld [] []))
    as (_ & _ & _ & H).
  apply (H (mkFile (Some (str "blob" ++ [10%N])))
           [mkFile (Some (str "other"))] (str "blob" ++ [10%N]) eq_refl).
Defined.
